(** * Possible prokaryotic promoters: the scorer and the scanner

    A shallow embedding of [find_possible_prokaryotic_promoters.py]:
    [check_is_dna], [fuzzy_match] and [find_possible_prokaryotic_sequences],
    with the Python primitives they rest on (string indexing and slicing,
    [range], [for] and [while]).

    Strings are sequences of 8-bit characters, read as the code points 0 to
    255 (ASCII and Latin-1); DNA input is ASCII text ([check_is_dna] admits
    the eight letters ACGTacgt only).  [str.upper] is modelled on all of
    them, the sharp s that becomes two characters included.  Integers are
    unbounded ([Z]), as in Python. *)

From Stdlib Require Import String Ascii.
From Stdlib Require Import ZArith List Bool Lia Sorted.
From Stdlib Require DecimalString.
Import ListNotations.

Local Open Scope Z_scope.

(** ** Python primitives *)

Module Py.

Definition str := list ascii.

(** A string literal of the source. *)
Definition lit (s : string) : str := list_ascii_of_string s.

Definition len {A} (s : list A) : Z := Z.of_nat (length s).

(** What evaluating an expression can do: give a value, raise [IndexError],
    or (for a [while] loop run on a budget of iterations) not finish within
    the budget. *)
Inductive result (A : Type) : Type :=
| Ok (a : A)
| IndexError
| OutOfFuel.
Arguments Ok {A} a.
Arguments IndexError {A}.
Arguments OutOfFuel {A}.

Definition bind {A B} (r : result A) (k : A -> result B) : result B :=
  match r with
  | Ok a => k a
  | IndexError => IndexError
  | OutOfFuel => OutOfFuel
  end.

Definition fmap {A B} (f : A -> B) (r : result A) : result B :=
  bind r (fun a => Ok (f a)).

(** [c.upper()] for a character whose upper case is one character, that is
    for every character but the sharp s: the letters a..z (97..122) and the
    Latin-1 letters 224..254, the division sign 247 apart, lose 32; the
    others stay.  Two upper cases lie outside the alphabet: those of the
    micro sign 181 and of the y with diaeresis 255 (U+039C and U+0178).  They
    are written 181 and 255 here: no other character of the alphabet has them
    as its upper case and each is its own upper case, so every comparison of
    upper-cased characters, with one another or with an ASCII letter, comes
    out as in Python. *)
Definition upper_char (c : ascii) : ascii :=
  let n := nat_of_ascii c in
  if (((97 <=? n) && (n <=? 122))
      || ((224 <=? n) && (n <=? 254) && negb (n =? 247)))%nat
  then ascii_of_nat (n - 32) else c.

(** The sharp s (223), whose upper case is the two characters SS. *)
Definition sharp_s : ascii := "223".

Definition upper_of (c : ascii) : str :=
  if Ascii.eqb c sharp_s then lit "SS" else [upper_char c].

(** [s.upper()]: character by character. *)
Definition upper (s : str) : str := flat_map upper_of s.

(** Every character of [s] is an ASCII character (below 128). *)
Definition is_ascii (s : str) : bool :=
  forallb (fun c => (nat_of_ascii c <? 128)%nat) s.

(** [s[i]]: a negative index counts from the end; out of range raises. *)
Definition getitem {A} (s : list A) (i : Z) : result A :=
  let k := if i <? 0 then i + len s else i in
  if k <? 0 then IndexError
  else match nth_error s (Z.to_nat k) with
       | Some c => Ok c
       | None => IndexError
       end.

(** How a slice bound is read: negative counts from the end, and the
    result is clamped to [0, len]. *)
Definition clamp (n : Z) (i : Z) : Z :=
  if i <? 0 then Z.max 0 (i + n) else Z.min i n.

(** [s[lo:hi]] *)
Definition slice {A} (s : list A) (lo hi : Z) : list A :=
  let a := clamp (len s) lo in
  let b := clamp (len s) hi in
  firstn (Z.to_nat (b - a)) (skipn (Z.to_nat a) s).

(** [range(lo, hi)] *)
Definition range (lo hi : Z) : list Z :=
  map (fun k => lo + Z.of_nat k) (seq 0 (Z.to_nat (hi - lo))).

(** [for x in xs: st = body(x, st)] *)
Fixpoint for_in {A S} (xs : list A) (body : A -> S -> result S) (st : S)
  : result S :=
  match xs with
  | [] => Ok st
  | x :: xs' => bind (body x st) (for_in xs' body)
  end.

(** [while cond(st): st = body(st)], on a budget of [fuel] tests of the
    condition. *)
Fixpoint while {S} (fuel : nat) (cond : S -> bool) (body : S -> result S)
  (st : S) : result S :=
  match fuel with
  | O => OutOfFuel
  | Datatypes.S fuel' =>
      if cond st then bind (body st) (while fuel' cond body) else Ok st
  end.

(** [x in xs] for a list of integers. *)
Definition contains (x : Z) (xs : list Z) : bool := existsb (Z.eqb x) xs.

End Py.

Import Py.

Notation "x <- r ;; k" := (bind r (fun x => k))
  (at level 61, r at next level, right associativity).

Declare Scope pychar_scope.
Delimit Scope pychar_scope with pychar.
Infix "==" := Ascii.eqb (at level 70, no associativity) : pychar_scope.

(** ** The program *)

Definition SEQUENCE_10 : str := lit "TATAAT".
Definition SEQUENCE_35 : str := lit "TTGACA".

(** The character class [[ACTGacgt]]. *)
Definition is_dna_char (c : ascii) : bool :=
  existsb (Ascii.eqb c) (lit "ACTGacgt").

(** [re.search('[^ACTGacgt]', s)]: is there a character outside the class? *)
Definition search_outside (s : str) : bool :=
  existsb (fun c => negb (is_dna_char c)) s.

Definition check_is_dna (input_dna_sequence : str) : bool :=
  if search_outside input_dna_sequence then false else true.

(** The [if]/[elif] chain of [fuzzy_match]'s loop body: does the position
    with [c1 = string1[index]] and [c2 = string2[index]] add one to
    [matching_nucleotides]? *)
Definition position_counts (c1 c2 : ascii) : bool :=
  (if c1 == c2 then true
   else if c2 == "R" then (c1 == "A") || (c1 == "Y")
   else if c2 == "Y" then (c1 == "C") || (c1 == "T")
   else if c2 == "S" then (c1 == "C") || (c1 == "G")
   else if c2 == "W" then (c1 == "A") || (c1 == "T")
   else if c2 == "K" then (c1 == "G") || (c1 == "T")
   else if c2 == "M" then (c1 == "A") || (c1 == "C")
   else if c2 == "B" then (c1 == "C") || (c1 == "G") || (c1 == "T")
   else if c2 == "V" then (c1 == "A") || (c1 == "C") || (c1 == "G")
   else if c2 == "D" then (c1 == "A") || (c1 == "G") || (c1 == "T")
   else if c2 == "H" then (c1 == "A") || (c1 == "C") || (c1 == "T")
   else if c2 == "N" then true
   else false)%pychar.

Definition fuzzy_body (string1 string2 : str) (index : Z)
  (matching_nucleotides : Z) : result Z :=
  c1 <- getitem string1 index ;;
  c2 <- getitem string2 index ;;
  Ok (if position_counts c1 c2 then matching_nucleotides + 1
      else matching_nucleotides).

Definition fuzzy_match (string1 string2 : str) : result Z :=
  let string1 := upper string1 in
  let string2 := upper string2 in
  for_in (range 0 (len string1)) (fuzzy_body string1 string2) 0.

(** The dict of three parallel lists. *)
Record promoters : Type := {
  positions : list Z;
  sequences : list str;
  scores : list Z
}.

(** The state of the scan: the dict, and a ghost log of the pairs
    [(index, next_index)] at which the body of the [while] loop ran, that is,
    the -10 offsets examined for each -35 start, in the order of running. *)
Record scan_state : Type := {
  possible_promoters : promoters;
  examined : list (Z * Z)
}.

Definition initial_state : scan_state :=
  {| possible_promoters := {| positions := []; sequences := []; scores := [] |};
     examined := [] |}.

Definition inner_cond (input_dna_sequence : str) (index : Z)
  (st : Z * scan_state) : bool :=
  let next_index := fst st in
  (next_index <? len input_dna_sequence - 11) && (next_index <? index + 31).

Definition inner_body (input_dna_sequence : str) (threshold : Z) (index : Z)
  (num_matching_nucleotides : Z) (st : Z * scan_state)
  : result (Z * scan_state) :=
  let next_index := fst st in
  let pp := possible_promoters (snd st) in
  next_matching_nucleotides <-
    fuzzy_match SEQUENCE_10 (slice input_dna_sequence next_index (next_index + 6)) ;;
  let pp' :=
    if (4 <=? next_matching_nucleotides)
       && (threshold <=? num_matching_nucleotides + next_matching_nucleotides)
    then
      if negb (contains index (positions pp)) then
        {| positions := positions pp ++ [index];
           sequences :=
             sequences pp ++ [slice input_dna_sequence index (next_index + 6)];
           scores :=
             scores pp ++ [num_matching_nucleotides + next_matching_nucleotides] |}
      else pp
    else pp in
  Ok (next_index + 1,
      {| possible_promoters := pp';
         examined := examined (snd st) ++ [(index, next_index)] |}).

Definition outer_body (fuel : nat) (input_dna_sequence : str) (threshold : Z)
  (index : Z) (st : scan_state) : result scan_state :=
  num_matching_nucleotides <-
    fuzzy_match SEQUENCE_35 (slice input_dna_sequence index (index + 6)) ;;
  if 4 <=? num_matching_nucleotides then
    fmap snd
      (while fuel (inner_cond input_dna_sequence index)
         (inner_body input_dna_sequence threshold index num_matching_nucleotides)
         (index + 21, st))
  else Ok st.

Definition scan_with (fuel : nat) (input_dna_sequence : str) (threshold : Z)
  : result scan_state :=
  for_in (range 0 (len input_dna_sequence - 5))
    (outer_body fuel input_dna_sequence threshold) initial_state.

(** The [while] loop starts at [index + 21] and stops at [index + 31] at the
    latest: its condition is tested at most 11 times ([scan_with_fuel] below
    shows that a larger budget changes nothing, [scan_refines] that the
    budget is never used up). *)
Definition inner_fuel : nat := 11.

Definition scan (input_dna_sequence : str) (threshold : Z) : result scan_state :=
  scan_with inner_fuel input_dna_sequence threshold.

Definition find_possible_prokaryotic_sequences (input_dna_sequence : str)
  (threshold : Z) : result promoters :=
  fmap possible_promoters (scan input_dna_sequence threshold).

Definition examined_offsets (input_dna_sequence : str) (threshold : Z)
  : result (list (Z * Z)) :=
  fmap examined (scan input_dna_sequence threshold).

(** ** Reading the result *)

(** One row of the three lists. *)
Record candidate : Type := {
  start : Z;
  span : str;
  score : Z
}.

Fixpoint rows (ps : list Z) (ss : list str) (cs : list Z) : list candidate :=
  match ps, ss, cs with
  | p :: ps', s :: ss', c :: cs' =>
      {| start := p; span := s; score := c |} :: rows ps' ss' cs'
  | _, _, _ => []
  end.

Definition candidates (pp : promoters) : list candidate :=
  rows (positions pp) (sequences pp) (scores pp).

Definition of_candidates (cs : list candidate) : promoters :=
  {| positions := map start cs;
     sequences := map span cs;
     scores := map score cs |}.

(** Rows appended to the three lists, and a state with rows and log entries
    appended. *)
Definition add_rows (pp : promoters) (cs : list candidate) : promoters :=
  {| positions := positions pp ++ map start cs;
     sequences := sequences pp ++ map span cs;
     scores := scores pp ++ map score cs |}.

Definition extend (st : scan_state) (cs : list candidate) (log : list (Z * Z))
  : scan_state :=
  {| possible_promoters := add_rows (possible_promoters st) cs;
     examined := examined st ++ log |}.

(** ** A closed form of the scan, for the proofs *)

(** The number of positions of the shorter of two strings that count. *)
Fixpoint match_count (s1 s2 : str) : Z :=
  match s1, s2 with
  | c1 :: s1', c2 :: s2' =>
      (if position_counts c1 c2 then 1 else 0) + match_count s1' s2'
  | _, _ => 0
  end.

Section ClosedForm.

Variable input : str.
Variable threshold : Z.

Definition score35 (i : Z) : Z :=
  match_count (upper SEQUENCE_35) (upper (slice input i (i + 6))).

Definition score10 (j : Z) : Z :=
  match_count (upper SEQUENCE_10) (upper (slice input j (j + 6))).

(** The -10 offsets the [while] loop visits for the -35 start [i]. *)
Definition window (i : Z) : list Z :=
  range (i + 21) (Z.min (len input - 11) (i + 31)).

Definition qualifies (i j : Z) : bool :=
  (4 <=? score10 j) && (threshold <=? score35 i + score10 j).

(** The row recorded for the first offset of [js] that qualifies, if any. *)
Definition first_hit (i : Z) (js : list Z) : list candidate :=
  match find (qualifies i) js with
  | Some j => [{| start := i;
                  span := slice input i (j + 6);
                  score := score35 i + score10 j |}]
  | None => []
  end.

(** What the [while] loop leaves in the dict: nothing new when [i] is
    already a recorded position, else the row of the first qualifying offset. *)
Definition recorded (i : Z) (pp : promoters) (js : list Z) : promoters :=
  if contains i (positions pp) then pp
  else add_rows pp (first_hit i js).

Definition candidate_at (i : Z) : list candidate :=
  if 4 <=? score35 i then first_hit i (window i) else [].

Definition examined_at (i : Z) : list (Z * Z) :=
  if 4 <=? score35 i then map (pair i) (window i) else [].

Definition scan_closed : scan_state :=
  let starts := range 0 (len input - 5) in
  {| possible_promoters := of_candidates (flat_map candidate_at starts);
     examined := flat_map examined_at starts |}.

End ClosedForm.

(** ** The tests of the scanner, as the code makes them *)

(** The pair of a -35 start [i] and a -10 offset [j] passes every test of the
    scanner, with the counts [n35] and [n10]: the window at [i] scores
    [n35 >= 4] against [SEQUENCE_35], [j] is an offset the [while] loop
    visits for [i], the window at [j] scores [n10 >= 4] against
    [SEQUENCE_10], and [n35 + n10 >= threshold]. *)
Definition passes (input : str) (threshold i j n35 n10 : Z) : Prop :=
  fuzzy_match SEQUENCE_35 (slice input i (i + 6)) = Ok n35
  /\ 4 <= n35
  /\ (i + 21 <= j /\ j < len input - 11 /\ j < i + 31)
  /\ fuzzy_match SEQUENCE_10 (slice input j (j + 6)) = Ok n10
  /\ 4 <= n10
  /\ threshold <= n35 + n10.

(** The -10 offsets logged for the -35 start [i], in the order of the log. *)
Definition offsets_of (i : Z) (log : list (Z * Z)) : list Z :=
  map snd (filter (fun p => fst p =? i) log).

(** ** The presentation functions *)

(** Code that writes to standard output: it takes the text written so far
    and gives its outcome, a value or a raised exception, with the text
    written by then. *)
Module Out.

Inductive raised : Type :=
| RaisedIndexError
| RaisedValueError.

Inductive outcome (A : Type) : Type :=
| Returns (a : A)
| Raises (e : raised).
Arguments Returns {A} a.
Arguments Raises {A} e.

Definition printing (A : Type) : Type := str -> outcome A * str.

Definition ret {A} (a : A) : printing A := fun out => (Returns a, out).

Definition raise {A} (e : raised) : printing A := fun out => (Raises e, out).

Definition bind {A B} (m : printing A) (k : A -> printing B) : printing B :=
  fun out =>
    match m out with
    | (Returns a, out') => k a out'
    | (Raises e, out') => (Raises e, out')
    end.

Definition newline : ascii := "010".

(** [print(s, end="")] *)
Definition write (s : str) : printing unit := fun out => (Returns tt, out ++ s).

(** [print(s)] *)
Definition print (s : str) : printing unit := write (s ++ [newline]).

(** [xs[i]] ([getitem] never runs a loop, so it never runs out of budget). *)
Definition item {A} (xs : list A) (i : Z) : printing A :=
  match getitem xs i with
  | Ok a => ret a
  | _ => raise RaisedIndexError
  end.

Fixpoint index_from (x : Z) (xs : list Z) (k : Z) : option Z :=
  match xs with
  | [] => None
  | y :: ys => if y =? x then Some k else index_from x ys (k + 1)
  end.

(** [xs.index(x)]: the first index of [x], or [ValueError]. *)
Definition index (xs : list Z) (x : Z) : printing Z :=
  match index_from x xs 0 with
  | Some k => ret k
  | None => raise RaisedValueError
  end.

(** [for x in xs: body(x)] *)
Fixpoint for_each {A} (xs : list A) (body : A -> printing unit) : printing unit :=
  match xs with
  | [] => ret tt
  | x :: xs' => bind (body x) (fun _ => for_each xs' body)
  end.

(** [str(n)] for an integer. *)
Definition str_of_int (n : Z) : str :=
  list_ascii_of_string (DecimalString.NilEmpty.string_of_int (Z.to_int n)).

(** ['{:ws}'.format(s)]: [s], filled with spaces on the right up to the
    width [w]. *)
Definition ljust (w : nat) (s : str) : str :=
  s ++ repeat " "%char (w - length s).

End Out.

Notation "x <~ m ;; k" := (Out.bind m (fun x => k))
  (at level 61, m at next level, right associativity).
Notation "m ;;; k" := (Out.bind m (fun _ => k))
  (at level 61, right associativity).

(** ['{:13s} {:50s}  {:8s}'.format('Position', "Sequence", "Score")] *)
Definition format_header : str :=
  Out.ljust 13 (lit "Position") ++ lit " " ++ Out.ljust 50 (lit "Sequence")
  ++ lit "  " ++ Out.ljust 8 (lit "Score").

(** ['{:2s} {:10s} {:50s}  {:3s} {:2s}'.format("[ ", str(position), sequence,
    str(score), " ]")] *)
Definition format_row (position : Z) (sequence : str) (score : Z) : str :=
  Out.ljust 2 (lit "[ ") ++ lit " " ++ Out.ljust 10 (Out.str_of_int position)
  ++ lit " " ++ Out.ljust 50 sequence ++ lit "  "
  ++ Out.ljust 3 (Out.str_of_int score) ++ lit " " ++ Out.ljust 2 (lit " ]").

Definition print_promoter_sequences (possible_promoters : promoters)
  : Out.printing unit :=
  Out.print (Out.newline :: lit "Possible Promoters in the DNA sequence:"
             ++ [Out.newline]) ;;;
  Out.print format_header ;;;
  Out.for_each (range 0 (len (positions possible_promoters))) (fun index =>
    position <~ Out.item (positions possible_promoters) index ;;
    sequence <~ Out.item (sequences possible_promoters) index ;;
    score <~ Out.item (scores possible_promoters) index ;;
    Out.print (format_row position sequence score)).

(** The escape sequences ['\033[95m'] and ['\033[0;0m']. *)
Definition pink : str := "027"%char :: lit "[95m".
Definition plain : str := "027"%char :: lit "[0;0m".

Definition print_each_sequence (input_dna_sequence : str)
  (possible_promoters : promoters) (position : Z) : Out.printing unit :=
  if contains position (positions possible_promoters) then
    Out.print (Out.newline :: lit "DNA Sequence: " ++ [Out.newline]) ;;;
    Out.write (slice input_dna_sequence 0 position) ;;;
    position_index <~ Out.index (positions possible_promoters) position ;;
    sequence <~ Out.item (sequences possible_promoters) position_index ;;
    Out.write (pink
               ++ slice input_dna_sequence position (position + len sequence)
               ++ plain) ;;;
    sequence' <~ Out.item (sequences possible_promoters) position_index ;;
    Out.print (slice input_dna_sequence (position + len sequence')
                 (len input_dna_sequence))
  else Out.ret tt.

(** ** Counting equal symbols *)

(** The number of positions of the shorter of two strings at which the two
    symbols are the same. *)
Fixpoint equal_count (s1 s2 : str) : Z :=
  match s1, s2 with
  | c1 :: s1', c2 :: s2' =>
      (if Ascii.eqb c1 c2 then 1 else 0) + equal_count s1' s2'
  | _, _ => 0
  end.

(** The dict with every recorded sequence in upper case. *)
Definition upper_sequences (pp : promoters) : promoters :=
  {| positions := positions pp;
     sequences := map upper (sequences pp);
     scores := scores pp |}.

(** A row with its span in upper case. *)
Definition upper_span (c : candidate) : candidate :=
  {| start := start c; span := upper (span c); score := score c |}.

(** What [print_each_sequence] writes first, and the text of one row of the
    table with its end of line. *)
Definition banner : str :=
  (Out.newline :: lit "DNA Sequence: " ++ [Out.newline]) ++ [Out.newline].

Definition table_title : str :=
  (Out.newline :: lit "Possible Promoters in the DNA sequence:"
   ++ [Out.newline]) ++ [Out.newline].

Definition row_line (c : candidate) : str :=
  format_row (start c) (span c) (score c) ++ [Out.newline].

(** ** Sanity checks on concrete inputs *)

(** A 36-symbol input: the two consensus sequences 18 symbols apart, and six
    more symbols. *)
Definition example_input : str := lit "TTGACATGTAAAAAAAAAAAAAAATATAATAAAAAA".

Example upper_example : upper (lit "acgtACGT-xz") = lit "ACGTACGT-XZ".
Proof. reflexivity. Qed.

Example upper_latin1 :
  upper ["a"; "223"; "224"; "247"; "254"; "181"; "255"]%char
  = ["A"; "S"; "S"; "192"; "247"; "222"; "181"; "255"]%char.
Proof. reflexivity. Qed.

Example slice_example :
  slice (lit "TTGACATG") 2 6 = lit "GACA"
  /\ slice (lit "TTGACATG") 6 12 = lit "TG"
  /\ slice (lit "TTGACATG") 9 12 = []
  /\ slice (lit "TTGACATG") (-3) 8 = lit "ATG".
Proof. repeat split. Qed.

Example range_example : range 3 7 = [3; 4; 5; 6] /\ range 0 (-2) = [].
Proof. split; reflexivity. Qed.

Example fuzzy_match_N : fuzzy_match (lit "AAAAAA") (lit "NNNNNN") = Ok 6.
Proof. reflexivity. Qed.

Example fuzzy_match_case :
  fuzzy_match (lit "ttgaca") (lit "TTGACA") = Ok 6
  /\ fuzzy_match (lit "TAGACT") (lit "TTGACA") = Ok 4.
Proof. split; reflexivity. Qed.

Example scan_short : find_possible_prokaryotic_sequences (lit "ACG") 0
                     = Ok {| positions := []; sequences := []; scores := [] |}.
Proof. reflexivity. Qed.

Example scan_example :
  scan example_input 8
  = Ok {| possible_promoters :=
            {| positions := [0];
               sequences := [lit "TTGACATGTAAAAAAAAAAAAAAATATAAT"];
               scores := [12] |};
          examined := [(0, 21); (0, 22); (0, 23); (0, 24)] |}.
Proof. vm_compute. reflexivity. Qed.

Example scan_example_13 :
  fmap positions (find_possible_prokaryotic_sequences example_input 13) = Ok [].
Proof. vm_compute. reflexivity. Qed.

(** ** Facts about the Python primitives *)

Section PyFacts.

Lemma range_nil lo hi : hi <= lo -> range lo hi = [].
Proof.
  intros H. unfold range.
  replace (Z.to_nat (hi - lo)) with 0%nat by lia. reflexivity.
Qed.

Lemma range_cons lo hi : lo < hi -> range lo hi = lo :: range (lo + 1) hi.
Proof.
  intros H. unfold range.
  replace (Z.to_nat (hi - lo)) with (S (Z.to_nat (hi - (lo + 1)))) by lia.
  cbn [seq map]. f_equal; [lia|].
  rewrite <- seq_shift, map_map.
  apply map_ext. intros k. lia.
Qed.

Lemma range_ind (P : Z -> Z -> Prop) :
  (forall lo hi, hi <= lo -> P lo hi) ->
  (forall lo hi, lo < hi -> P (lo + 1) hi -> P lo hi) ->
  forall lo hi, P lo hi.
Proof.
  intros Hnil Hcons lo hi.
  remember (Z.to_nat (hi - lo)) as n eqn:E.
  revert lo E. induction n as [|n IH]; intros lo E.
  - apply Hnil. lia.
  - apply Hcons; [lia|]. apply IH. lia.
Qed.

Lemma in_range lo hi j : In j (range lo hi) <-> lo <= j < hi.
Proof.
  revert lo hi. apply (range_ind (fun lo hi => In j (range lo hi) <-> lo <= j < hi)).
  - intros lo hi H. rewrite range_nil by assumption. cbn. lia.
  - intros lo hi H IH. rewrite range_cons by assumption. cbn. rewrite IH. lia.
Qed.

Lemma range_sorted lo hi : StronglySorted Z.lt (range lo hi).
Proof.
  revert lo hi. apply (range_ind (fun lo hi => StronglySorted Z.lt (range lo hi))).
  - intros lo hi H. rewrite range_nil by assumption. constructor.
  - intros lo hi H IH. rewrite range_cons by assumption. constructor; [exact IH|].
    apply Forall_forall. intros j Hj. apply in_range in Hj. lia.
Qed.

Lemma len_app {A} (s t : list A) : len (s ++ t) = len s + len t.
Proof. unfold len. rewrite length_app. lia. Qed.

Lemma len_nonneg {A} (s : list A) : 0 <= len s.
Proof. unfold len. lia. Qed.

Lemma upper_app s t : upper (s ++ t) = upper s ++ upper t.
Proof. apply flat_map_app. Qed.

(** Upper-casing never shortens a string. *)
Lemma len_upper_ge s : len s <= len (upper s).
Proof.
  induction s as [|c s IH]; [reflexivity|].
  change (upper (c :: s)) with (upper_of c ++ upper s).
  rewrite len_app. unfold upper_of, len in *. cbn [length].
  destruct (Ascii.eqb c sharp_s); cbn [length lit list_ascii_of_string]; lia.
Qed.

(** Without a sharp s, upper-casing works on each character apart. *)
Lemma upper_plain s : ~ In sharp_s s -> upper s = map upper_char s.
Proof.
  induction s as [|c s IH]; intros H; [reflexivity|].
  change (upper (c :: s)) with (upper_of c ++ upper s). cbn [map].
  rewrite IH by (intros Hin; apply H; now right).
  unfold upper_of. destruct (Ascii.eqb_spec c sharp_s) as [->|_]; [|reflexivity].
  exfalso. apply H. now left.
Qed.

Lemma is_ascii_plain s : is_ascii s = true -> ~ In sharp_s s.
Proof.
  unfold is_ascii. rewrite forallb_forall. intros H Hin.
  specialize (H _ Hin). discriminate.
Qed.

Lemma upper_ascii s : is_ascii s = true -> upper s = map upper_char s.
Proof. intros H. now apply upper_plain, is_ascii_plain. Qed.

Lemma len_upper_ascii s : is_ascii s = true -> len (upper s) = len s.
Proof. intros H. rewrite upper_ascii by assumption. unfold len. now rewrite length_map. Qed.

Lemma upper_of_idem c : upper (upper_of c) = upper_of c.
Proof. destruct c as [[] [] [] [] [] [] [] []]; reflexivity. Qed.

Lemma upper_idem s : upper (upper s) = upper s.
Proof.
  induction s as [|c s IH]; [reflexivity|].
  change (upper (c :: s)) with (upper_of c ++ upper s).
  now rewrite upper_app, upper_of_idem, IH.
Qed.

Lemma getitem_middle {A} (pre : list A) c rest :
  getitem (pre ++ c :: rest) (len pre) = Ok c.
Proof.
  unfold getitem. pose proof (len_nonneg pre) as Hp.
  destruct (len pre <? 0) eqn:E; [lia|]. rewrite E.
  unfold len. rewrite Nat2Z.id, nth_error_app2, Nat.sub_diag by lia.
  reflexivity.
Qed.

Lemma getitem_beyond {A} (s : list A) i : len s <= i -> getitem s i = IndexError.
Proof.
  intros H. unfold getitem. pose proof (len_nonneg s) as Hs.
  destruct (i <? 0) eqn:E; [lia|]. rewrite E.
  destruct (nth_error s (Z.to_nat i)) eqn:N; [|reflexivity].
  assert (nth_error s (Z.to_nat i) <> None) as Hn by congruence.
  apply nth_error_Some in Hn. unfold len in H. lia.
Qed.

(** A slice inside the string has the length its bounds say. *)
Lemma len_slice {A} (s : list A) lo hi :
  0 <= lo -> lo <= hi -> hi <= len s -> len (slice s lo hi) = hi - lo.
Proof.
  intros H0 H1 H2. unfold slice, clamp.
  destruct (lo <? 0) eqn:E1; [lia|]. destruct (hi <? 0) eqn:E2; [lia|].
  rewrite !Z.min_l by lia.
  unfold len in *. rewrite length_firstn, length_skipn. lia.
Qed.

Lemma bind_Ok {A B} (a : A) (k : A -> result B) : bind (Ok a) k = k a.
Proof. reflexivity. Qed.

Lemma fmap_Ok {A B} (f : A -> B) (a : A) : fmap f (Ok a) = Ok (f a).
Proof. reflexivity. Qed.

(** More budget than a loop needs changes nothing. *)
Lemma while_more_fuel {S} (cond : S -> bool) body fuel fuel' (st st' : S) :
  (fuel <= fuel')%nat ->
  while fuel cond body st = Ok st' -> while fuel' cond body st = Ok st'.
Proof.
  revert fuel' st. induction fuel as [|fuel IH]; intros fuel' st Hle H.
  - discriminate.
  - destruct fuel' as [|fuel']; [lia|]. cbn in *.
    destruct (cond st); [|exact H].
    destruct (body st) as [st1| |]; cbn in *; try discriminate.
    apply IH; [lia|exact H].
Qed.

End PyFacts.

(** ** The scorer *)

Section Scorer.

Lemma match_count_bounds s1 s2 :
  0 <= match_count s1 s2 <= Z.min (len s1) (len s2).
Proof.
  revert s2. induction s1 as [|c1 s1 IH]; intros [|c2 s2]; unfold len in *; cbn [match_count length];
    try lia.
  specialize (IH s2). destruct (position_counts c1 c2); lia.
Qed.

(** The loop of [fuzzy_match], entered at position [len pre1] with count
    [m]: it reads the rest of [string1] against the rest of [string2], and
    raises when [string2] ends first. *)
Lemma fuzzy_loop s1 : forall pre1 pre2 s2 m,
  len pre1 = len pre2 ->
  for_in (range (len pre1) (len pre1 + len s1))
    (fuzzy_body (pre1 ++ s1) (pre2 ++ s2)) m
  = if (len s1 <=? len s2) then Ok (m + match_count s1 s2) else IndexError.
Proof.
  induction s1 as [|c1 s1 IH]; intros pre1 pre2 s2 m Hpre.
  - rewrite range_nil by (unfold len; cbn; lia).
    cbn [for_in match_count]. change (len (@nil ascii)) with 0.
    pose proof (len_nonneg s2).
    destruct (Z.leb_spec 0 (len s2)); [f_equal; lia|lia].
  - pose proof (len_nonneg s1) as Hs1.
    rewrite range_cons by (unfold len in *; cbn [length]; lia).
    cbn [for_in]. unfold fuzzy_body at 1.
    rewrite getitem_middle, bind_Ok, Hpre.
    destruct s2 as [|c2 s2].
    + rewrite getitem_beyond by (rewrite app_nil_r; lia).
      cbn [bind]. destruct (Z.leb_spec (len (c1 :: s1)) (len (@nil ascii))); [|reflexivity].
      unfold len in *; cbn [length] in *; lia.
    + rewrite getitem_middle, !bind_Ok.
      replace (pre1 ++ c1 :: s1) with ((pre1 ++ [c1]) ++ s1) by (now rewrite <- app_assoc).
      replace (pre2 ++ c2 :: s2) with ((pre2 ++ [c2]) ++ s2) by (now rewrite <- app_assoc).
      replace (len pre2 + 1) with (len (pre1 ++ [c1]))
        by (rewrite len_app; unfold len in *; cbn [length]; lia).
      replace (len pre2 + len (c1 :: s1)) with (len (pre1 ++ [c1]) + len s1)
        by (rewrite len_app; unfold len in *; cbn [length]; lia).
      rewrite IH by (rewrite !len_app; unfold len in *; cbn [length]; lia).
      cbn [match_count].
      replace (len (c1 :: s1) <=? len (c2 :: s2)) with (len s1 <=? len s2)
        by (unfold len; cbn [length]; destruct (Z.leb_spec (Z.of_nat (length s1)) (Z.of_nat (length s2))), (Z.leb_spec (Z.of_nat (S (length s1))) (Z.of_nat (S (length s2)))); lia).
      destruct (len s1 <=? len s2); [|reflexivity].
      f_equal. destruct (position_counts c1 c2); lia.
Qed.

(** [fuzzy_match] in closed form. *)
Lemma fuzzy_match_closed string1 string2 :
  fuzzy_match string1 string2
  = if len (upper string1) <=? len (upper string2)
    then Ok (match_count (upper string1) (upper string2))
    else IndexError.
Proof.
  unfold fuzzy_match.
  pose proof (fuzzy_loop (upper string1) [] [] (upper string2) 0 eq_refl) as H.
  cbn [app] in H. change (len (@nil ascii)) with 0 in H.
  rewrite Z.add_0_l in H. exact H.
Qed.

Lemma fuzzy_match_Ok string1 string2 :
  len (upper string1) <= len (upper string2) ->
  fuzzy_match string1 string2 = Ok (match_count (upper string1) (upper string2)).
Proof.
  intros H. rewrite fuzzy_match_closed.
  destruct (Z.leb_spec (len (upper string1)) (len (upper string2)));
    [reflexivity|lia].
Qed.

Lemma fuzzy_match_IndexError string1 string2 :
  len (upper string2) < len (upper string1) ->
  fuzzy_match string1 string2 = IndexError.
Proof.
  intros H. rewrite fuzzy_match_closed.
  destruct (Z.leb_spec (len (upper string1)) (len (upper string2)));
    [lia|reflexivity].
Qed.

End Scorer.


(** ** The scanner *)

Section Scanner.

Variable input : str.
Variable threshold : Z.

Lemma len_SEQUENCE_10 : len SEQUENCE_10 = 6.
Proof. reflexivity. Qed.

Lemma len_SEQUENCE_35 : len SEQUENCE_35 = 6.
Proof. reflexivity. Qed.

(** A 6-symbol window inside the input is scored without error. *)
Lemma fuzzy_match_10 j :
  0 <= j -> j + 6 <= len input ->
  fuzzy_match SEQUENCE_10 (slice input j (j + 6)) = Ok (score10 input j).
Proof.
  intros H0 H1. apply fuzzy_match_Ok.
  pose proof (len_upper_ge (slice input j (j + 6))) as H.
  rewrite len_slice in H by lia. change (len (upper SEQUENCE_10)) with 6. lia.
Qed.

Lemma fuzzy_match_35 i :
  0 <= i -> i + 6 <= len input ->
  fuzzy_match SEQUENCE_35 (slice input i (i + 6)) = Ok (score35 input i).
Proof.
  intros H0 H1. apply fuzzy_match_Ok.
  pose proof (len_upper_ge (slice input i (i + 6))) as H.
  rewrite len_slice in H by lia. change (len (upper SEQUENCE_35)) with 6. lia.
Qed.

Lemma score35_bounds i : 0 <= score35 input i <= 6.
Proof.
  unfold score35. pose proof (match_count_bounds (upper SEQUENCE_35)
    (upper (slice input i (i + 6)))) as H.
  change (len (upper SEQUENCE_35)) with 6 in H. lia.
Qed.

Lemma score10_bounds j : 0 <= score10 input j <= 6.
Proof.
  unfold score10. pose proof (match_count_bounds (upper SEQUENCE_10)
    (upper (slice input j (j + 6)))) as H.
  change (len (upper SEQUENCE_10)) with 6 in H. lia.
Qed.

Lemma add_rows_nil pp : add_rows pp [] = pp.
Proof. destruct pp. unfold add_rows. cbn. now rewrite !app_nil_r. Qed.

Lemma add_rows_app pp cs1 cs2 :
  add_rows (add_rows pp cs1) cs2 = add_rows pp (cs1 ++ cs2).
Proof. unfold add_rows. cbn. now rewrite !map_app, !app_assoc. Qed.

Lemma extend_nil st : extend st [] [] = st.
Proof. destruct st. unfold extend. cbn. now rewrite add_rows_nil, app_nil_r. Qed.

Lemma extend_extend st cs1 log1 cs2 log2 :
  extend (extend st cs1 log1) cs2 log2 = extend st (cs1 ++ cs2) (log1 ++ log2).
Proof. unfold extend. cbn. now rewrite add_rows_app, app_assoc. Qed.

Lemma contains_true x xs : contains x xs = true <-> In x xs.
Proof.
  unfold contains. rewrite existsb_exists. split.
  - intros (y & Hy & E). apply Z.eqb_eq in E. now subst.
  - intros H. exists x. split; [assumption|apply Z.eqb_refl].
Qed.

Lemma contains_app_self x xs : contains x (xs ++ [x]) = true.
Proof. apply contains_true, in_or_app. right. now left. Qed.

(** The [while] loop entered at [next_index = n]: it runs for every offset of
    [range n bound], within any budget above their number. *)
Lemma inner_loop i fuel : forall n st,
  let bound := Z.min (len input - 11) (i + 31) in
  0 <= n ->
  (Z.to_nat (bound - n) < fuel)%nat ->
  while fuel (inner_cond input i)
    (inner_body input threshold i (score35 input i)) (n, st)
  = Ok (Z.max n bound,
        {| possible_promoters := recorded input threshold i (possible_promoters st) (range n bound);
           examined := examined st ++ map (pair i) (range n bound) |}).
Proof.
  induction fuel as [|fuel IH]; intros n st bound Hn Hfuel; [lia|].
  cbn [while]. unfold inner_cond at 1. cbn [fst].
  destruct (Z.ltb_spec n (len input - 11)) as [H1|H1];
    [destruct (Z.ltb_spec n (i + 31)) as [H2|H2]|]; cbn [andb].
  - (* the body runs at offset [n] *)
    unfold inner_body at 1. cbn [fst snd].
    rewrite fuzzy_match_10, !bind_Ok by lia. cbv zeta.
    rewrite IH by (fold bound; lia). fold bound.
    rewrite (range_cons n bound) by (subst bound; lia).
    cbn [examined possible_promoters map].
    rewrite <- app_assoc. cbn [app].
    replace (Z.max (n + 1) bound) with (Z.max n bound) by (subst bound; lia).
    do 3 f_equal.
    unfold recorded, first_hit. cbn [find].
    fold (qualifies input threshold i n).
    destruct (contains i (positions (possible_promoters st))) eqn:C.
    + cbn [negb]. destruct (qualifies input threshold i n); now rewrite C.
    + cbn [negb]. destruct (qualifies input threshold i n) eqn:Q.
      * cbn [positions]. rewrite contains_app_self. reflexivity.
      * now rewrite C.
  - rewrite (range_nil n bound) by (subst bound; lia).
    replace (Z.max n bound) with n by (subst bound; lia).
    unfold recorded, first_hit. cbn [find map].
    rewrite add_rows_nil, app_nil_r.
    destruct st as [pp log]. cbn. now destruct (contains i (positions pp)).
  - rewrite (range_nil n bound) by (subst bound; lia).
    replace (Z.max n bound) with n by (subst bound; lia).
    unfold recorded, first_hit. cbn [find map].
    rewrite add_rows_nil, app_nil_r.
    destruct st as [pp log]. cbn. now destruct (contains i (positions pp)).
Qed.

(** One turn of the [for] loop, at a start not yet among the positions. *)
Lemma outer_step fuel i st :
  (inner_fuel <= fuel)%nat ->
  0 <= i -> i + 6 <= len input ->
  contains i (positions (possible_promoters st)) = false ->
  outer_body fuel input threshold i st
  = Ok (extend st (candidate_at input threshold i) (examined_at input i)).
Proof.
  intros Hfuel H0 H1 Hnew. unfold outer_body, candidate_at, examined_at.
  rewrite fuzzy_match_35, bind_Ok by assumption.
  destruct (4 <=? score35 input i).
  - rewrite inner_loop by (unfold inner_fuel in Hfuel; lia).
    rewrite fmap_Ok. cbn [snd]. unfold recorded. now rewrite Hnew.
  - now rewrite extend_nil.
Qed.

Lemma start_first_hit i js c :
  In c (first_hit input threshold i js) -> start c = i.
Proof.
  unfold first_hit. destruct (find _ js); cbn; [|tauto].
  intros [<-|[]]. reflexivity.
Qed.

Lemma start_candidate_at i c :
  In c (candidate_at input threshold i) -> start c = i.
Proof.
  unfold candidate_at. destruct (4 <=? score35 input i); [|intros []].
  apply start_first_hit.
Qed.

(** The [for] loop over increasing starts, entered with all recorded
    positions below them. *)
Lemma outer_loop fuel : forall xs st,
  (inner_fuel <= fuel)%nat ->
  StronglySorted Z.lt xs ->
  (forall x, In x xs -> 0 <= x /\ x + 6 <= len input) ->
  (forall x p, In x xs -> In p (positions (possible_promoters st)) -> p < x) ->
  for_in xs (outer_body fuel input threshold) st
  = Ok (extend st (flat_map (candidate_at input threshold) xs)
          (flat_map (examined_at input) xs)).
Proof.
  induction xs as [|x xs IH]; intros st Hfuel Hsorted Hin Hbelow.
  - cbn. now rewrite extend_nil.
  - cbn [for_in flat_map].
    apply StronglySorted_inv in Hsorted as [Hsorted Hx].
    rewrite Forall_forall in Hx.
    rewrite outer_step, bind_Ok; try assumption; try (apply Hin; now left).
    + rewrite IH, extend_extend; try assumption.
      * reflexivity.
      * intros y Hy. apply Hin. now right.
      * intros y p Hy Hp. cbn in Hp. apply in_app_or in Hp as [Hp|Hp].
        -- apply Hbelow; [now right|assumption].
        -- apply in_map_iff in Hp as (c & <- & Hc).
           rewrite (start_candidate_at x c Hc). now apply Hx.
    + destruct (contains x (positions (possible_promoters st))) eqn:C; [|reflexivity].
      apply contains_true in C. specialize (Hbelow x x (or_introl eq_refl) C). lia.
Qed.

(** The scan computes its closed form, within any budget of at least
    [inner_fuel] for the [while] loop. *)
Lemma scan_with_fuel fuel :
  (inner_fuel <= fuel)%nat ->
  scan_with fuel input threshold = Ok (scan_closed input threshold).
Proof.
  intros Hfuel. unfold scan_with.
  rewrite outer_loop; try assumption.
  - reflexivity.
  - apply range_sorted.
  - intros x Hx. apply in_range in Hx. lia.
  - intros x p _ [].
Qed.

Lemma scan_refines : scan input threshold = Ok (scan_closed input threshold).
Proof. apply scan_with_fuel. apply Nat.le_refl. Qed.

Lemma find_refines :
  find_possible_prokaryotic_sequences input threshold
  = Ok (of_candidates
          (flat_map (candidate_at input threshold) (range 0 (len input - 5)))).
Proof.
  unfold find_possible_prokaryotic_sequences. now rewrite scan_refines.
Qed.

Lemma examined_refines :
  examined_offsets input threshold
  = Ok (flat_map (examined_at input) (range 0 (len input - 5))).
Proof. unfold examined_offsets. now rewrite scan_refines. Qed.

Lemma candidates_of_candidates cs : candidates (of_candidates cs) = cs.
Proof.
  unfold candidates, of_candidates. cbn.
  induction cs as [|[p s c] cs IH]; cbn; [reflexivity|now rewrite IH].
Qed.

End Scanner.

(** ** The scorer on concrete and on ill-matched arguments *)

Section ScorerClaims.

(** C3, as the specification states it, fails: [fuzzy_match("AAAAAA", "TTGACA")]
    is not 0. *)
Lemma fuzzy_match_AAAAAA_TTGACA_not_0 :
  fuzzy_match (lit "AAAAAA") (lit "TTGACA") <> Ok 0.
Proof. vm_compute. discriminate. Qed.

(** C3, amended: [fuzzy_match("AAAAAA", "TTGACA")] returns 2, since the
    fourth and the sixth symbols of TTGACA are A. *)
Theorem fuzzy_match_AAAAAA_TTGACA :
  fuzzy_match (lit "AAAAAA") (lit "TTGACA") = Ok 2.
Proof. vm_compute. reflexivity. Qed.

(** The code R counts for an observed A, Y or R, whatever the case of the
    two symbols, and for nothing else. *)
Lemma position_counts_R c :
  position_counts c "R" = true <-> c = "A"%char \/ c = "Y"%char \/ c = "R"%char.
Proof.
  unfold position_counts. cbn [Ascii.eqb].
  destruct (Ascii.eqb_spec c "R") as [->|HR]; [intuition|].
  change (("R" == "R")%pychar) with true. cbv iota.
  destruct (Ascii.eqb_spec c "A") as [->|HA]; [intuition|].
  destruct (Ascii.eqb_spec c "Y") as [->|HY]; [intuition|].
  cbn. intuition discriminate.
Qed.

(** C2, on the code: of the four observed symbols A, C, G and T, the pattern
    symbol R counts for A only; an observed G against R adds nothing to the
    result of [fuzzy_match], where the table of ambiguity codes has R stand
    for A or G. *)
Theorem fuzzy_match_R_counts_A_only :
  fuzzy_match (lit "A") (lit "R") = Ok 1
  /\ fuzzy_match (lit "C") (lit "R") = Ok 0
  /\ fuzzy_match (lit "G") (lit "R") = Ok 0
  /\ fuzzy_match (lit "T") (lit "R") = Ok 0
  /\ position_counts "G" "R" = false.
Proof. repeat split. Qed.

Lemma slice_prefix {A} (s : list A) k :
  0 <= k <= len s -> slice s 0 k = firstn (Z.to_nat k) s.
Proof.
  intros H. unfold slice, clamp.
  destruct (0 <? 0) eqn:E0; [lia|]. destruct (k <? 0) eqn:E1; [lia|].
  rewrite Z.min_l, Z.min_l, Z.sub_0_r by lia. reflexivity.
Qed.

Lemma match_count_firstn s1 : forall s2,
  match_count s1 (firstn (length s1) s2) = match_count s1 s2.
Proof.
  induction s1 as [|c1 s1 IH]; intros [|c2 s2]; cbn; try reflexivity.
  now rewrite IH.
Qed.

Lemma is_ascii_firstn n : forall s,
  is_ascii s = true -> is_ascii (firstn n s) = true.
Proof.
  induction n as [|n IH]; intros [|c s] H; cbn [firstn]; try reflexivity.
  unfold is_ascii in *. cbn [forallb] in *.
  apply andb_prop in H as [Hc Hs]. apply andb_true_intro. split; [exact Hc|].
  now apply IH.
Qed.

(** C9, as the claim states it, fails: with two sharp s as its first
    argument and AAA as its second, [fuzzy_match] raises [IndexError]
    although the first string is the shorter one, and with AA first and one
    sharp s second it returns 0 although the first string is the longer one:
    the lengths that matter are those of the upper-cased strings. *)
Lemma fuzzy_match_lengths_sharp_s :
  (len [sharp_s; sharp_s] < len (lit "AAA")
   /\ fuzzy_match [sharp_s; sharp_s] (lit "AAA") = IndexError)
  /\ (len [sharp_s] < len (lit "AA")
      /\ fuzzy_match (lit "AA") [sharp_s] = Ok 0).
Proof. repeat split. Qed.

(** C9, amended: when the upper-cased arguments have different lengths,
    [fuzzy_match] returns the number of positions that match among the
    first [len(string1.upper())] ones, without error, when the upper-cased
    first string is the shorter one, and raises [IndexError] when it is the
    longer one.  On ASCII arguments upper-casing keeps the lengths, and this
    is the claim: a shorter [string1] gives the count over its positions (the
    same as against [string2] cut to its length), a longer one [IndexError]. *)
Theorem fuzzy_match_lengths_differ string1 string2 :
  (len (upper string1) < len (upper string2) ->
   fuzzy_match string1 string2
   = Ok (match_count (upper string1) (upper string2))
   /\ match_count (upper string1) (upper string2)
      = match_count (upper string1)
          (slice (upper string2) 0 (len (upper string1)))
   /\ 0 <= match_count (upper string1) (upper string2) <= len (upper string1))
  /\ (len (upper string2) < len (upper string1) ->
      fuzzy_match string1 string2 = IndexError)
  /\ (is_ascii string1 = true -> is_ascii string2 = true ->
      (len string1 < len string2 ->
       fuzzy_match string1 string2
       = Ok (match_count (upper string1) (upper string2))
       /\ fuzzy_match string1 (slice string2 0 (len string1))
          = Ok (match_count (upper string1) (upper string2))
       /\ 0 <= match_count (upper string1) (upper string2) <= len string1)
      /\ (len string2 < len string1 ->
          fuzzy_match string1 string2 = IndexError)).
Proof.
  assert (forall s1 s2 : str, len s1 <= len s2 ->
            match_count s1 (slice s2 0 (len s1)) = match_count s1 s2) as Hcut.
  { intros s1 s2 H. pose proof (len_nonneg s1).
    rewrite slice_prefix by lia. unfold len. rewrite Nat2Z.id.
    apply match_count_firstn. }
  split; [|split; [apply fuzzy_match_IndexError|]].
  - intros H. split; [apply fuzzy_match_Ok; lia|]. split.
    + symmetry. apply Hcut. lia.
    + pose proof (match_count_bounds (upper string1) (upper string2)). lia.
  - intros A1 A2.
    pose proof (len_upper_ascii _ A1) as L1. pose proof (len_upper_ascii _ A2) as L2.
    split.
    + intros H. pose proof (len_nonneg string1) as H1.
      split; [apply fuzzy_match_Ok; lia|]. split.
      * assert (is_ascii (slice string2 0 (len string1)) = true) as A3
          by (rewrite slice_prefix by lia; now apply is_ascii_firstn).
        rewrite fuzzy_match_Ok
          by (rewrite (len_upper_ascii _ A3), len_slice; lia).
        f_equal. rewrite (upper_ascii _ A3), slice_prefix by lia.
        rewrite <- firstn_map, <- (upper_ascii _ A2).
        rewrite <- (Hcut (upper string1) (upper string2)) by lia.
        rewrite slice_prefix by (pose proof (len_nonneg (upper string1)); lia).
        now rewrite L1.
      * pose proof (match_count_bounds (upper string1) (upper string2)). lia.
    + intros H. apply fuzzy_match_IndexError. lia.
Qed.

Lemma fuzzy_match_lengths_differ_witness :
  (len (upper [sharp_s]) < len (upper (lit "TAT"))
   /\ fuzzy_match [sharp_s] (lit "TAT")
      = Ok (match_count (upper [sharp_s]) (upper (lit "TAT"))))
  /\ (len (upper (lit "TA")) < len (upper (lit "TATAAT"))
      /\ fuzzy_match (lit "TATAAT") (lit "TA") = IndexError)
  /\ ((is_ascii (lit "ta") = true /\ is_ascii (lit "TATAAT") = true
       /\ len (lit "ta") < len (lit "TATAAT"))
      /\ fuzzy_match (lit "ta") (lit "TATAAT") = Ok 2
      /\ fuzzy_match (lit "ta") (slice (lit "TATAAT") 0 (len (lit "ta"))) = Ok 2).
Proof.
  assert (len (upper [sharp_s]) < len (upper (lit "TAT"))) as H1 by reflexivity.
  assert (len (upper (lit "TA")) < len (upper (lit "TATAAT"))) as H2 by reflexivity.
  assert (len (lit "ta") < len (lit "TATAAT")) as H3 by reflexivity.
  split; [split; [exact H1|]|split; [split; [exact H2|]|split; [repeat split; exact H3|]]].
  - exact (proj1 (proj1 (fuzzy_match_lengths_differ [sharp_s] (lit "TAT")) H1)).
  - exact (proj1 (proj2 (fuzzy_match_lengths_differ (lit "TATAAT") (lit "TA"))) H2).
  - pose proof (proj1 (proj2 (proj2
      (fuzzy_match_lengths_differ (lit "ta") (lit "TATAAT"))) eq_refl eq_refl) H3)
      as (E1 & E2 & _).
    split; [exact E1|exact E2].
Defined.

Lemma check_is_dna_cons c s :
  check_is_dna (c :: s) = is_dna_char c && check_is_dna s.
Proof.
  unfold check_is_dna, search_outside. cbn [existsb].
  destruct (is_dna_char c); reflexivity.
Qed.

(** Upper-cased DNA symbols are plain bases, on which a position counts
    exactly when the two symbols are equal. *)
Lemma is_dna_char_cases c :
  is_dna_char c = true ->
  upper_char c = "A"%char \/ upper_char c = "C"%char
  \/ upper_char c = "G"%char \/ upper_char c = "T"%char.
Proof.
  unfold is_dna_char. rewrite existsb_exists. intros (d & Hd & E).
  apply Ascii.eqb_eq in E. subst d.
  cbn in Hd. repeat (destruct Hd as [<-|Hd]; [cbn; tauto|]). destruct Hd.
Qed.

Lemma position_counts_dna c1 c2 :
  is_dna_char c1 = true -> is_dna_char c2 = true ->
  position_counts (upper_char c1) (upper_char c2)
  = position_counts (upper_char c2) (upper_char c1).
Proof.
  intros H1 H2.
  destruct (is_dna_char_cases c1 H1) as [-> | [-> | [-> | ->]]];
    destruct (is_dna_char_cases c2 H2) as [-> | [-> | [-> | ->]]]; reflexivity.
Qed.

(** What [check_is_dna] accepts is ASCII text. *)
Lemma check_is_dna_ascii s : check_is_dna s = true -> is_ascii s = true.
Proof.
  induction s as [|c s IH]; [reflexivity|].
  rewrite check_is_dna_cons. intros H. apply andb_prop in H as [Hc Hs].
  unfold is_ascii in *. cbn [forallb]. rewrite (IH Hs), andb_true_r.
  unfold is_dna_char in Hc. rewrite existsb_exists in Hc.
  destruct Hc as (d & Hd & E). apply Ascii.eqb_eq in E. subst d.
  cbn in Hd. repeat (destruct Hd as [<-|Hd]; [reflexivity|]). destruct Hd.
Qed.

Lemma upper_dna s : check_is_dna s = true -> upper s = map upper_char s.
Proof. intros H. now apply upper_ascii, check_is_dna_ascii. Qed.

Lemma len_upper_dna s : check_is_dna s = true -> len (upper s) = len s.
Proof. intros H. now apply len_upper_ascii, check_is_dna_ascii. Qed.

Lemma match_count_dna s : forall t,
  check_is_dna s = true -> check_is_dna t = true ->
  match_count (upper s) (upper t) = match_count (upper t) (upper s).
Proof.
  intros t Hs Ht. rewrite (upper_dna s Hs), (upper_dna t Ht).
  revert t Hs Ht.
  induction s as [|c1 s IH]; intros [|c2 t] Hs Ht; cbn [map match_count];
    try reflexivity.
  rewrite check_is_dna_cons in Hs, Ht.
  apply andb_prop in Hs as [Hc1 Hs]. apply andb_prop in Ht as [Hc2 Ht].
  rewrite IH by assumption. now rewrite position_counts_dna.
Qed.

Lemma check_is_dna_firstn n : forall s,
  check_is_dna s = true -> check_is_dna (firstn n s) = true.
Proof.
  induction n as [|n IH]; intros [|c s] H; cbn [firstn]; try reflexivity.
  rewrite check_is_dna_cons in *. apply andb_prop in H as [Hc Hs].
  apply andb_true_intro. split; [exact Hc|]. now apply IH.
Qed.

Lemma check_is_dna_skipn n : forall s,
  check_is_dna s = true -> check_is_dna (skipn n s) = true.
Proof.
  induction n as [|n IH]; intros [|c s] H; cbn [skipn]; try reflexivity;
    try assumption.
  rewrite check_is_dna_cons in H. apply andb_prop in H as [Hc Hs]. now apply IH.
Qed.

Lemma check_is_dna_slice s lo hi :
  check_is_dna s = true -> check_is_dna (slice s lo hi) = true.
Proof.
  intros H. unfold slice. now apply check_is_dna_firstn, check_is_dna_skipn.
Qed.

(** C10: on two strings of the same length made of the symbols A, C, G, T
    (in either case), [fuzzy_match] gives the same count whichever comes
    first; so the calls of the scanner, pattern first and 6-symbol window
    second, give the count of the window scored against the pattern. *)
Theorem fuzzy_match_symmetric_on_dna :
  (forall s t,
     check_is_dna s = true -> check_is_dna t = true -> len s = len t ->
     exists n, fuzzy_match s t = Ok n /\ fuzzy_match t s = Ok n)
  /\ (forall input i,
        check_is_dna input = true -> 0 <= i -> i + 6 <= len input ->
        (exists n35,
            fuzzy_match SEQUENCE_35 (slice input i (i + 6)) = Ok n35
            /\ fuzzy_match (slice input i (i + 6)) SEQUENCE_35 = Ok n35)
        /\ (exists n10,
            fuzzy_match SEQUENCE_10 (slice input i (i + 6)) = Ok n10
            /\ fuzzy_match (slice input i (i + 6)) SEQUENCE_10 = Ok n10)).
Proof.
  assert (forall s t,
     check_is_dna s = true -> check_is_dna t = true -> len s = len t ->
     exists n, fuzzy_match s t = Ok n /\ fuzzy_match t s = Ok n) as Hsym.
  { intros s t Hs Ht Hlen. exists (match_count (upper s) (upper t)).
    rewrite !fuzzy_match_Ok by (rewrite !len_upper_dna by assumption; lia).
    split; [reflexivity|].
    f_equal. now apply match_count_dna. }
  split; [exact Hsym|].
  intros input i Hdna H0 H1. split; apply Hsym;
    try reflexivity; try (now apply check_is_dna_slice);
    rewrite len_slice by lia; cbn; lia.
Qed.

Lemma fuzzy_match_symmetric_on_dna_witness :
  (exists n, fuzzy_match (lit "TTGACA") (lit "tagaca") = Ok n
             /\ fuzzy_match (lit "tagaca") (lit "TTGACA") = Ok n)
  /\ (exists n35,
        fuzzy_match SEQUENCE_35 (slice (lit "GGTTGTCAGG") 2 (2 + 6)) = Ok n35
        /\ fuzzy_match (slice (lit "GGTTGTCAGG") 2 (2 + 6)) SEQUENCE_35 = Ok n35).
Proof.
  split.
  - apply (proj1 fuzzy_match_symmetric_on_dna); reflexivity.
  - apply (proj2 fuzzy_match_symmetric_on_dna (lit "GGTTGTCAGG") 2);
      [reflexivity | lia | vm_compute; discriminate].
Defined.

End ScorerClaims.

(** ** What the scan records and what it examines *)

Section ScanFacts.

Variable input : str.
Variable threshold : Z.

Let starts := range 0 (len input - 5).

Lemma find_range_first (f : Z -> bool) j : forall lo hi,
  find f (range lo hi) = Some j ->
  lo <= j < hi /\ f j = true /\ forall j', lo <= j' < j -> f j' = false.
Proof.
  apply (range_ind (fun lo hi => find f (range lo hi) = Some j ->
    lo <= j < hi /\ f j = true /\ forall j', lo <= j' < j -> f j' = false)).
  - intros lo hi H. rewrite range_nil by assumption. discriminate.
  - intros lo hi H IH. rewrite range_cons by assumption. cbn [find].
    destruct (f lo) eqn:F.
    + intros [= <-]. repeat split; try lia. assumption.
    + intros E. destruct (IH E) as (Hj & Fj & Hfirst).
      repeat split; try lia; try assumption.
      intros j' Hj'. destruct (Z.eq_dec j' lo) as [->|Hne]; [assumption|].
      apply Hfirst. lia.
Qed.

Lemma in_window i j :
  In j (window input i) <-> i + 21 <= j /\ j < len input - 11 /\ j < i + 31.
Proof. unfold window. rewrite in_range. lia. Qed.

(** The tests of the code and those of the closed form agree. *)
Lemma passes_closed i j n35 n10 :
  0 <= i ->
  passes input threshold i j n35 n10 <->
  n35 = score35 input i /\ n10 = score10 input j /\ 4 <= score35 input i
  /\ In j (window input i) /\ qualifies input threshold i j = true.
Proof.
  intros H0. unfold passes, qualifies. rewrite in_window, andb_true_iff, !Z.leb_le.
  split.
  - intros (E35 & H35 & Hw & E10 & H10 & Ht).
    rewrite fuzzy_match_35 in E35 by lia. rewrite fuzzy_match_10 in E10 by lia.
    injection E35 as <-. injection E10 as <-. tauto.
  - intros (-> & -> & H35 & Hw & H10 & Ht).
    rewrite fuzzy_match_35, fuzzy_match_10 by lia. tauto.
Qed.

(** A recorded row comes from the first offset of the window that passes. *)
Lemma candidate_at_first i c :
  0 <= i ->
  In c (candidate_at input threshold i) ->
  exists j,
    c = {| start := i; span := slice input i (j + 6);
           score := score35 input i + score10 input j |}
    /\ passes input threshold i j (score35 input i) (score10 input j)
    /\ forall j' n10', passes input threshold i j' (score35 input i) n10' -> j <= j'.
Proof.
  intros H0. unfold candidate_at, first_hit.
  destruct (Z.leb_spec 4 (score35 input i)) as [H35|H35]; [|intros []].
  destruct (find _ (window input i)) as [j|] eqn:F; [|intros []].
  intros [<-|[]]. exists j. split; [reflexivity|].
  unfold window in F. apply find_range_first in F as (Hj & Q & Hfirst).
  split.
  - apply passes_closed; [assumption|]. unfold window. rewrite in_range. tauto.
  - intros j' n10' P. apply passes_closed in P as (_ & _ & _ & Hw & Q'); [|assumption].
    unfold window in Hw. apply in_range in Hw.
    destruct (Z.le_gt_cases j j') as [Hle|Hgt]; [assumption|].
    rewrite Hfirst in Q' by lia. discriminate.
Qed.

(** A start with an offset that passes has a row. *)
Lemma candidate_at_some i j n35 n10 :
  0 <= i -> passes input threshold i j n35 n10 ->
  exists c, In c (candidate_at input threshold i).
Proof.
  intros H0 P. apply passes_closed in P as (_ & _ & H35 & Hw & Q); [|assumption].
  unfold candidate_at, first_hit.
  destruct (Z.leb_spec 4 (score35 input i)) as [_|]; [|lia].
  destruct (find _ (window input i)) as [j0|] eqn:F.
  - eexists. now left.
  - rewrite (find_none _ _ F j Hw) in Q. discriminate.
Qed.

Lemma in_recorded c :
  In c (flat_map (candidate_at input threshold) starts) <->
  0 <= start c < len input - 5 /\ In c (candidate_at input threshold (start c)).
Proof.
  rewrite in_flat_map. split.
  - intros (i & Hi & Hc). rewrite (start_candidate_at _ _ _ _ Hc).
    apply in_range in Hi. split; [lia|assumption].
  - intros (Hi & Hc). exists (start c). split; [apply in_range; lia|assumption].
Qed.

(** The recorded positions increase with the starts scanned. *)
Lemma recorded_sorted xs :
  StronglySorted Z.lt xs ->
  StronglySorted Z.lt (map start (flat_map (candidate_at input threshold) xs)).
Proof.
  induction 1 as [|x xs Hs IH Hx]; cbn [flat_map map]; [constructor|].
  rewrite map_app.
  assert (Forall (Z.lt x) (map start (flat_map (candidate_at input threshold) xs))) as Hrest.
  { rewrite Forall_forall in *. intros p Hp.
    apply in_map_iff in Hp as (c & <- & Hc).
    apply in_flat_map in Hc as (y & Hy & Hc).
    rewrite (start_candidate_at _ _ _ _ Hc). now apply Hx. }
  unfold candidate_at at 1, first_hit.
  destruct (4 <=? score35 input x); [|exact IH].
  destruct (find _ (window input x)); [|exact IH].
  cbn. constructor; assumption.
Qed.

Lemma sorted_NoDup xs : StronglySorted Z.lt xs -> NoDup xs.
Proof.
  induction 1 as [|x xs Hs IH Hx]; constructor; [|assumption].
  intros Hin. rewrite Forall_forall in Hx. specialize (Hx x Hin). lia.
Qed.

(** The log holds, for each start, the offsets of its window. *)
Lemma in_examined i j :
  In (i, j) (flat_map (examined_at input) starts) ->
  0 <= i < len input - 5 /\ 4 <= score35 input i /\ In j (window input i).
Proof.
  rewrite in_flat_map. intros (x & Hx & H). apply in_range in Hx.
  unfold examined_at in H.
  destruct (Z.leb_spec 4 (score35 input x)) as [H35|]; [|destruct H].
  apply in_map_iff in H as (j0 & [= <- <-] & Hj). repeat split; try lia; assumption.
Qed.

Lemma offsets_of_other i x :
  x <> i -> offsets_of i (examined_at input x) = [].
Proof.
  intros Hne. unfold offsets_of, examined_at.
  destruct (4 <=? score35 input x); [|reflexivity].
  induction (window input x) as [|j js IH]; [reflexivity|].
  cbn [map filter fst]. destruct (Z.eqb_spec x i); [contradiction|exact IH].
Qed.

Lemma offsets_of_self i :
  offsets_of i (examined_at input i)
  = if 4 <=? score35 input i then window input i else [].
Proof.
  unfold offsets_of, examined_at.
  destruct (4 <=? score35 input i); [|reflexivity].
  induction (window input i) as [|j js IH]; [reflexivity|].
  cbn [map filter fst snd]. rewrite Z.eqb_refl. cbn [map snd]. now rewrite IH.
Qed.

Lemma offsets_of_app i l1 l2 :
  offsets_of i (l1 ++ l2) = offsets_of i l1 ++ offsets_of i l2.
Proof. unfold offsets_of. now rewrite filter_app, map_app. Qed.

Lemma offsets_of_log i xs :
  NoDup xs -> In i xs ->
  offsets_of i (flat_map (examined_at input) xs)
  = if 4 <=? score35 input i then window input i else [].
Proof.
  induction 1 as [|x xs Hx Hnd IH]; [intros []|].
  cbn [flat_map]. rewrite offsets_of_app. intros [->|Hin].
  - rewrite offsets_of_self.
    assert (offsets_of i (flat_map (examined_at input) xs) = []) as ->.
    { clear IH Hnd. induction xs as [|y ys IHy]; [reflexivity|].
      cbn [flat_map]. rewrite offsets_of_app, offsets_of_other, IHy.
      - reflexivity.
      - intros Hi. apply Hx. now right.
      - intros ->. apply Hx. now left. }
    now rewrite app_nil_r.
  - rewrite offsets_of_other, IH by (try assumption; intros ->; contradiction).
    reflexivity.
Qed.

End ScanFacts.

(** ** The scanner, claim by claim *)

Section ScannerClaims.

(** C1, as the specification states it, fails: on
    "TTGACATGTAAAAAAAAAAAAAAATATAAT" with threshold 8 the scan does not
    return one candidate with start 0, score 12 and the whole input as its
    span. *)
Lemma scenario_not_one_candidate :
  ~ exists c,
      fmap candidates
        (find_possible_prokaryotic_sequences
           (lit "TTGACATGTAAAAAAAAAAAAAAATATAAT") 8) = Ok [c]
      /\ start c = 0 /\ score c = 12
      /\ span c = lit "TTGACATGTAAAAAAAAAAAAAAATATAAT".
Proof.
  intros (c & H & _). vm_compute in H. discriminate.
Qed.

(** C1, amended: on "TTGACATGTAAAAAAAAAAAAAAATATAAT" (30 symbols) with
    threshold 8 the scan returns no candidate, the [while] loop asking for a
    -10 offset below [len - 11 = 19] and starting at 21; with six more
    symbols after it (here AAAAAA) the scan returns exactly one candidate,
    with start 0, score 12 and the 30 symbols as its span. *)
Theorem scenario_scan :
  fmap candidates
    (find_possible_prokaryotic_sequences
       (lit "TTGACATGTAAAAAAAAAAAAAAATATAAT") 8) = Ok []
  /\ fmap candidates
       (find_possible_prokaryotic_sequences
          (lit "TTGACATGTAAAAAAAAAAAAAAATATAATAAAAAA") 8)
     = Ok [{| start := 0;
              span := lit "TTGACATGTAAAAAAAAAAAAAAATATAAT";
              score := 12 |}].
Proof. split; vm_compute; reflexivity. Qed.

(** C4: for a start [i] admitted as a -35 anchor (the window at [i] scores
    at least 4 against [SEQUENCE_35]), the -10 offsets at which the body of
    the [while] loop runs are exactly the integers [j] with [i + 21 <= j],
    [j < len - 11] and [j < i + 31], in increasing order. *)
Theorem examined_window input threshold i n35 :
  0 <= i -> i < len input - 5 ->
  fuzzy_match SEQUENCE_35 (slice input i (i + 6)) = Ok n35 ->
  4 <= n35 ->
  exists log,
    examined_offsets input threshold = Ok log
    /\ offsets_of i log = range (i + 21) (Z.min (len input - 11) (i + 31))
    /\ (forall j, In j (offsets_of i log) <->
                  i + 21 <= j /\ j < len input - 11 /\ j < i + 31)
    /\ StronglySorted Z.lt (offsets_of i log).
Proof.
  intros H0 H1 E35 H35. eexists. split; [apply examined_refines|].
  rewrite fuzzy_match_35 in E35 by lia. injection E35 as <-.
  rewrite offsets_of_log.
  - destruct (Z.leb_spec 4 (score35 input i)); [|lia].
    split; [reflexivity|]. split; [apply in_window|apply range_sorted].
  - apply sorted_NoDup, range_sorted.
  - apply in_range. lia.
Qed.

Lemma examined_window_witness :
  (0 <= 0 /\ 0 < len example_input - 5
   /\ fuzzy_match SEQUENCE_35 (slice example_input 0 (0 + 6)) = Ok 6 /\ 4 <= 6)
  /\ exists log,
       examined_offsets example_input 8 = Ok log
       /\ offsets_of 0 log = range (0 + 21) (Z.min (len example_input - 11) (0 + 31))
       /\ (forall j, In j (offsets_of 0 log) <->
                     0 + 21 <= j /\ j < len example_input - 11 /\ j < 0 + 31)
       /\ StronglySorted Z.lt (offsets_of 0 log).
Proof.
  split.
  - repeat split; try reflexivity; lia.
  - apply (examined_window example_input 8 0 6); try reflexivity; lia.
Defined.

(** C5: every candidate the scan returns has a -35 count of at least 4, a
    -10 count of at least 4, their sum, which is its score, at least the
    threshold, and a span of length [(j - i) + 6], where [i] is its start
    and [j] the -10 offset at which it was recorded. *)
Theorem candidates_pass input threshold :
  exists pp,
    find_possible_prokaryotic_sequences input threshold = Ok pp
    /\ length (positions pp) = length (candidates pp)
    /\ length (sequences pp) = length (candidates pp)
    /\ length (scores pp) = length (candidates pp)
    /\ forall c, In c (candidates pp) ->
         exists j n35 n10,
           passes input threshold (start c) j n35 n10
           /\ 4 <= n35 /\ 4 <= n10 /\ threshold <= n35 + n10
           /\ score c = n35 + n10
           /\ span c = slice input (start c) (j + 6)
           /\ len (span c) = (j - start c) + 6.
Proof.
  eexists. split; [apply find_refines|].
  rewrite candidates_of_candidates. cbn [positions sequences scores of_candidates].
  rewrite !length_map. repeat (split; [reflexivity|]).
  intros c Hc. apply in_recorded in Hc as (Hi & Hc).
  remember (start c) as i eqn:Ei.
  apply candidate_at_first in Hc as (j & -> & P & _); [|lia].
  cbn [start span score]. clear Ei.
  exists j, (score35 input i), (score10 input j).
  pose proof P as (_ & H35 & (Hw1 & Hw2 & Hw3) & _ & H10 & Ht).
  repeat (split; [assumption || reflexivity|]).
  rewrite len_slice by lia. lia.
Qed.

(** C6: the start positions the scan returns are strictly increasing, so no
    two candidates share a start; and the candidate recorded for a start is
    the one of the smallest -10 offset that passes the tests for it (a start
    with such an offset has a candidate). *)
Theorem candidates_increasing_first input threshold :
  exists pp,
    find_possible_prokaryotic_sequences input threshold = Ok pp
    /\ StronglySorted Z.lt (positions pp)
    /\ NoDup (positions pp)
    /\ positions pp = map start (candidates pp)
    /\ (forall c, In c (candidates pp) ->
          exists j n35 n10,
            passes input threshold (start c) j n35 n10
            /\ span c = slice input (start c) (j + 6)
            /\ score c = n35 + n10
            /\ forall j' n10',
                 passes input threshold (start c) j' n35 n10' -> j <= j')
    /\ (forall i j n35 n10,
          0 <= i -> passes input threshold i j n35 n10 ->
          exists c, In c (candidates pp) /\ start c = i).
Proof.
  eexists. split; [apply find_refines|].
  rewrite candidates_of_candidates. cbn [positions of_candidates].
  assert (StronglySorted Z.lt
            (map start (flat_map (candidate_at input threshold)
                          (range 0 (len input - 5))))) as Hsorted
    by apply recorded_sorted, range_sorted.
  split; [exact Hsorted|]. split; [now apply sorted_NoDup|].
  split; [reflexivity|]. split.
  - intros c Hc. apply in_recorded in Hc as (Hi & Hc).
    remember (start c) as i eqn:Ei.
    apply candidate_at_first in Hc as (j & -> & P & Hfirst); [|lia].
    cbn [start span score]. clear Ei.
    exists j, (score35 input i), (score10 input j).
    repeat (split; [assumption || reflexivity|]). exact Hfirst.
  - intros i j n35 n10 H0 P.
    destruct (candidate_at_some _ _ _ _ _ _ H0 P) as (c & Hc).
    exists c. pose proof (start_candidate_at _ _ _ _ Hc) as Hs.
    split; [|exact Hs]. apply in_recorded. rewrite Hs. split; [|assumption].
    destruct P as (_ & _ & Hw & _). pose proof (len_nonneg input). lia.
Qed.

Lemma passes_lower input t1 t2 i j n35 n10 :
  t1 <= t2 -> passes input t2 i j n35 n10 -> passes input t1 i j n35 n10.
Proof. unfold passes. intros Ht (? & ? & ? & ? & ? & ?). repeat split; try tauto. lia. Qed.

(** C7: with thresholds [t1 < t2], every start position the scan returns at
    [t2] is among those it returns at [t1] (so it returns no more candidates
    at [t2] than at [t1]). *)
Theorem positions_antitone input t1 t2 :
  t1 < t2 ->
  exists p1 p2,
    find_possible_prokaryotic_sequences input t1 = Ok p1
    /\ find_possible_prokaryotic_sequences input t2 = Ok p2
    /\ incl (positions p2) (positions p1)
    /\ (length (positions p2) <= length (positions p1))%nat.
Proof.
  intros Ht. do 2 eexists. split; [apply find_refines|]. split; [apply find_refines|].
  cbn [positions of_candidates].
  assert (incl
    (map start (flat_map (candidate_at input t2) (range 0 (len input - 5))))
    (map start (flat_map (candidate_at input t1) (range 0 (len input - 5)))))
    as Hincl.
  { intros i Hi. apply in_map_iff in Hi as (c & <- & Hc).
    apply in_recorded in Hc as (Hi & Hc).
    apply candidate_at_first in Hc as (j & _ & P & _); [|lia].
    apply (passes_lower input t1 t2) in P; [|lia].
    destruct (candidate_at_some _ _ _ _ _ _ (proj1 Hi) P) as (c1 & Hc1).
    pose proof (start_candidate_at _ _ _ _ Hc1) as Hs.
    apply in_map_iff. exists c1. split; [exact Hs|].
    apply in_recorded. rewrite Hs. tauto. }
  split; [exact Hincl|].
  apply NoDup_incl_length; [|exact Hincl].
  apply sorted_NoDup, recorded_sorted, range_sorted.
Qed.

Lemma positions_antitone_witness :
  8 < 13
  /\ exists p1 p2,
       find_possible_prokaryotic_sequences example_input 8 = Ok p1
       /\ find_possible_prokaryotic_sequences example_input 13 = Ok p2
       /\ incl (positions p2) (positions p1)
       /\ (length (positions p2) <= length (positions p1))%nat.
Proof.
  split; [lia|]. apply (positions_antitone example_input 8 13). lia.
Defined.

Lemma examined_complete input i j :
  0 <= i < len input - 5 -> 4 <= score35 input i -> In j (window input i) ->
  In (i, j) (flat_map (examined_at input) (range 0 (len input - 5))).
Proof.
  intros Hi H35 Hj. apply in_flat_map. exists i. split; [apply in_range; lia|].
  unfold examined_at. destruct (Z.leb_spec 4 (score35 input i)); [|lia].
  now apply in_map.
Qed.

(** C8: every -10 offset the scan examines, and so every offset [j] at which
    a candidate is recorded, is at most [len - 12]: an offset among the last
    11 of the sequence is never examined nor reported; a recorded span ends
    at index [j + 5 <= len - 7], with at least 6 symbols of the sequence
    after it. *)
Theorem last_offsets_unreported input threshold :
  exists pp log,
    find_possible_prokaryotic_sequences input threshold = Ok pp
    /\ examined_offsets input threshold = Ok log
    /\ (forall i j, In (i, j) log -> j <= len input - 12)
    /\ (forall i j, len input - 11 <= j -> ~ In (i, j) log)
    /\ (forall c, In c (candidates pp) ->
          exists j,
            In (start c, j) log
            /\ span c = slice input (start c) (j + 6)
            /\ j <= len input - 12
            /\ start c + len (span c) - 1 = j + 5
            /\ j + 5 <= len input - 7
            /\ start c + len (span c) + 6 <= len input).
Proof.
  do 2 eexists. split; [apply find_refines|]. split; [apply examined_refines|].
  rewrite candidates_of_candidates.
  assert (forall i j,
    In (i, j) (flat_map (examined_at input) (range 0 (len input - 5))) ->
    j <= len input - 12) as Hlog.
  { intros i j H. apply in_examined in H as (_ & _ & Hw).
    apply in_window in Hw. lia. }
  split; [exact Hlog|]. split.
  - intros i j Hj Hin. apply Hlog in Hin. lia.
  - intros c Hc. apply in_recorded in Hc as (Hi & Hc).
    remember (start c) as i eqn:Ei.
    apply candidate_at_first in Hc as (j & -> & P & _); [|lia].
    cbn [start span score]. clear Ei. exists j.
    destruct P as (_ & H35 & Hw & _).
    split; [apply examined_complete; try assumption; now apply in_window|].
    split; [reflexivity|]. rewrite len_slice by lia. lia.
Qed.

End ScannerClaims.

(** ** More on the scorer and on the validation *)

Section ScorerMore.

Lemma position_counts_refl c : position_counts c c = true.
Proof. unfold position_counts. now rewrite Ascii.eqb_refl. Qed.

Lemma match_count_refl s : match_count s s = len s.
Proof.
  induction s as [|c s IH]; [reflexivity|].
  cbn [match_count]. rewrite position_counts_refl, IH.
  unfold len. cbn [length]. lia.
Qed.

(** X1: a string scored against itself counts every position of its upper
    case: [fuzzy_match(s, s) = len(s.upper())], which is [len(s)] for an
    ASCII string (and 2 for a sharp s, whose upper case is SS). *)
Theorem fuzzy_match_self s :
  fuzzy_match s s = Ok (len (upper s))
  /\ (is_ascii s = true -> fuzzy_match s s = Ok (len s))
  /\ fuzzy_match [sharp_s] [sharp_s] = Ok 2.
Proof.
  assert (fuzzy_match s s = Ok (len (upper s))) as H
    by (rewrite fuzzy_match_Ok by lia; now rewrite match_count_refl).
  split; [exact H|]. split; [|reflexivity].
  intros A. now rewrite H, len_upper_ascii.
Qed.

Lemma fuzzy_match_self_witness :
  is_ascii (lit "TTGaca") = true
  /\ fuzzy_match (lit "TTGaca") (lit "TTGaca") = Ok (len (lit "TTGaca")).
Proof.
  split; [reflexivity|].
  exact (proj1 (proj2 (fuzzy_match_self (lit "TTGaca"))) eq_refl).
Defined.

Lemma position_counts_N c : position_counts c "N" = true.
Proof.
  unfold position_counts. destruct (Ascii.eqb c "N"); reflexivity.
Qed.

Lemma match_count_N s1 : forall s2,
  Forall (fun c => c = "N"%char) s2 -> len s1 <= len s2 ->
  match_count s1 s2 = len s1.
Proof.
  induction s1 as [|c1 s1 IH]; intros s2 HN Hlen; [reflexivity|].
  destruct s2 as [|c2 s2]; [unfold len in Hlen; cbn in Hlen; lia|].
  apply Forall_cons_iff in HN as [-> HN].
  cbn [match_count]. rewrite position_counts_N, IH; try assumption;
    unfold len in *; cbn [length] in *; lia.
Qed.

Lemma upper_all_N s :
  Forall (fun c => upper_char c = "N"%char) s ->
  upper s = map upper_char s /\ Forall (fun c => c = "N"%char) (upper s).
Proof.
  intros HN.
  assert (upper s = map upper_char s) as E.
  { apply upper_plain. intros Hin. rewrite Forall_forall in HN.
    specialize (HN _ Hin). discriminate. }
  split; [exact E|]. rewrite E. apply Forall_map. exact HN.
Qed.

(** X2: against a second string made of the code N (in either case) and at
    least as long as the upper-cased first string, every position of the
    upper-cased first string counts: the result is [len(string1.upper())],
    which is [len(string1)] when [string1] is ASCII. *)
Theorem fuzzy_match_all_N string1 string2 :
  Forall (fun c => upper_char c = "N"%char) string2 ->
  len (upper string1) <= len string2 ->
  fuzzy_match string1 string2 = Ok (len (upper string1))
  /\ (is_ascii string1 = true -> fuzzy_match string1 string2 = Ok (len string1)).
Proof.
  intros HN Hlen. destruct (upper_all_N string2 HN) as (E & HN').
  assert (len (upper string2) = len string2) as L2
    by (rewrite E; unfold len; now rewrite length_map).
  assert (fuzzy_match string1 string2 = Ok (len (upper string1))) as H.
  { rewrite fuzzy_match_Ok by lia. f_equal.
    apply match_count_N; [exact HN'|lia]. }
  split; [exact H|]. intros A. now rewrite H, len_upper_ascii.
Qed.

Lemma fuzzy_match_all_N_witness :
  (Forall (fun c => upper_char c = "N"%char) (lit "NnNNnN")
   /\ len (upper (lit "acgTTG")) <= len (lit "NnNNnN")
   /\ is_ascii (lit "acgTTG") = true)
  /\ fuzzy_match (lit "acgTTG") (lit "NnNNnN") = Ok (len (lit "acgTTG")).
Proof.
  assert (Forall (fun c => upper_char c = "N"%char) (lit "NnNNnN")) as HN
    by (repeat constructor).
  assert (len (upper (lit "acgTTG")) <= len (lit "NnNNnN")) as Hlen
    by (vm_compute; discriminate).
  split; [repeat split; assumption|].
  exact (proj2 (fuzzy_match_all_N (lit "acgTTG") (lit "NnNNnN") HN Hlen) eq_refl).
Defined.

(** X3: the count does not depend on the case of either argument: putting
    the first, the second or both in upper case changes nothing. *)
Theorem fuzzy_match_case_blind string1 string2 :
  fuzzy_match (upper string1) string2 = fuzzy_match string1 string2
  /\ fuzzy_match string1 (upper string2) = fuzzy_match string1 string2
  /\ fuzzy_match (upper string1) (upper string2) = fuzzy_match string1 string2.
Proof.
  rewrite !fuzzy_match_closed, !upper_idem. repeat split.
Qed.

Lemma position_counts_base c1 c2 :
  In c2 (lit "ACGT") -> position_counts c1 c2 = Ascii.eqb c1 c2.
Proof.
  intros H. cbn in H. unfold position_counts.
  destruct H as [<-|[<-|[<-|[<-|[]]]]];
    match goal with |- context [Ascii.eqb c1 ?b] => destruct (Ascii.eqb c1 b) end;
    reflexivity.
Qed.

Lemma is_dna_char_upper c :
  is_dna_char c = existsb (Ascii.eqb (upper_char c)) (lit "ACGT").
Proof. destruct c as [[] [] [] [] [] [] [] []]; reflexivity. Qed.

Lemma is_dna_char_base c :
  is_dna_char c = true <-> In (upper_char c) (lit "ACGT").
Proof.
  rewrite is_dna_char_upper, existsb_exists. split.
  - intros (b & Hb & E). apply Ascii.eqb_eq in E. now subst.
  - intros H. exists (upper_char c). split; [assumption|apply Ascii.eqb_refl].
Qed.

Lemma match_count_equal_count s1 : forall s2,
  check_is_dna s2 = true ->
  match_count s1 (upper s2) = equal_count s1 (upper s2).
Proof.
  intros s2 Hdna. rewrite (upper_dna s2 Hdna). revert s2 Hdna.
  induction s1 as [|c1 s1 IH]; intros [|c2 s2] Hdna; try reflexivity.
  rewrite check_is_dna_cons in Hdna. apply andb_prop in Hdna as [Hc Hdna].
  cbn [map match_count equal_count].
  rewrite position_counts_base by (now apply is_dna_char_base).
  now rewrite IH.
Qed.

(** X4: against a second string of plain bases (what [check_is_dna]
    accepts), at least as long as the upper-cased first string, only equal
    symbols count, whatever the first string holds: an ambiguity code in the
    first argument matches nothing but itself.  The scanner passes the
    consensus first and the window second, so a code in a consensus would
    match no base. *)
Theorem fuzzy_match_codes_first string1 string2 :
  check_is_dna string2 = true ->
  len (upper string1) <= len string2 ->
  fuzzy_match string1 string2
  = Ok (equal_count (upper string1) (upper string2)).
Proof.
  intros Hdna Hlen.
  rewrite fuzzy_match_Ok by (rewrite (len_upper_dna _ Hdna); assumption).
  now rewrite match_count_equal_count.
Qed.

Lemma fuzzy_match_codes_first_witness :
  (check_is_dna (lit "TTGACA") = true
   /\ len (upper (lit "TTRNCA")) <= len (lit "TTGACA"))
  /\ fuzzy_match (lit "TTRNCA") (lit "TTGACA") = Ok 4
  /\ fuzzy_match (lit "TTGACA") (lit "TTRNCA") = Ok 5.
Proof.
  assert (len (upper (lit "TTRNCA")) <= len (lit "TTGACA")) as Hlen
    by (vm_compute; discriminate).
  split; [split; [reflexivity|assumption]|]. split; [|reflexivity].
  exact (fuzzy_match_codes_first (lit "TTRNCA") (lit "TTGACA") eq_refl Hlen).
Defined.

Lemma match_count_app s1 : forall t1 s2 t2,
  length s1 = length t1 ->
  match_count (s1 ++ s2) (t1 ++ t2) = match_count s1 t1 + match_count s2 t2.
Proof.
  induction s1 as [|c s1 IH]; intros [|d t1] s2 t2 Hlen; try discriminate.
  - reflexivity.
  - cbn [app match_count]. injection Hlen as Hlen. rewrite IH by assumption. lia.
Qed.

(** X5: counts add up over concatenation: when the upper-cased first parts
    have the same length (for ASCII strings: when the first parts have) and
    the second part of the first string is no longer, upper-cased, than that
    of the second, [fuzzy_match(s1 + s2, t1 + t2)] is the sum of
    [fuzzy_match(s1, t1)] and [fuzzy_match(s2, t2)]. *)
Theorem fuzzy_match_concat s1 s2 t1 t2 :
  len (upper s1) = len (upper t1) -> len (upper s2) <= len (upper t2) ->
  exists n1 n2,
    fuzzy_match s1 t1 = Ok n1 /\ fuzzy_match s2 t2 = Ok n2
    /\ fuzzy_match (s1 ++ s2) (t1 ++ t2) = Ok (n1 + n2).
Proof.
  intros H1 H2. do 2 eexists.
  split; [apply fuzzy_match_Ok; lia|]. split; [apply fuzzy_match_Ok; lia|].
  rewrite fuzzy_match_Ok by (rewrite !upper_app, !len_app; lia).
  rewrite !upper_app, match_count_app; [reflexivity|].
  unfold len in H1. lia.
Qed.

Lemma fuzzy_match_concat_witness :
  (len (upper (lit "TTG")) = len (upper (lit "TAG"))
   /\ len (upper (lit "ACA")) <= len (upper (lit "ACT")))
  /\ exists n1 n2,
       fuzzy_match (lit "TTG") (lit "TAG") = Ok n1
       /\ fuzzy_match (lit "ACA") (lit "ACT") = Ok n2
       /\ fuzzy_match (lit "TTG" ++ lit "ACA") (lit "TAG" ++ lit "ACT")
          = Ok (n1 + n2).
Proof.
  assert (len (upper (lit "ACA")) <= len (upper (lit "ACT"))) as Hlen
    by (vm_compute; discriminate).
  split; [split; [reflexivity|assumption]|].
  exact (fuzzy_match_concat (lit "TTG") (lit "ACA") (lit "TAG") (lit "ACT")
           eq_refl Hlen).
Defined.

Lemma check_is_dna_app s t :
  check_is_dna (s ++ t) = check_is_dna s && check_is_dna t.
Proof.
  induction s as [|c s IH]; [reflexivity|].
  cbn [app]. rewrite !check_is_dna_cons, IH. apply andb_assoc.
Qed.

(** X6: [check_is_dna] accepts a string exactly when every symbol, put in
    upper case as [fuzzy_match] does, is one of the bases A, C, G, T; so it
    accepts the empty string, and rejects a string that holds any other
    character, a line feed or a blank included. *)
Theorem check_is_dna_accepts s :
  (check_is_dna s = true <-> Forall (fun c => In (upper_char c) (lit "ACGT")) s)
  /\ check_is_dna [] = true
  /\ (forall before c after,
        ~ In (upper_char c) (lit "ACGT") ->
        check_is_dna (before ++ c :: after) = false).
Proof.
  split; [|split; [reflexivity|]].
  - induction s as [|c s IH]; [split; [constructor|reflexivity]|].
    rewrite check_is_dna_cons, andb_true_iff, Forall_cons_iff, IH, is_dna_char_base.
    reflexivity.
  - intros before c after Hc. rewrite check_is_dna_app, check_is_dna_cons.
    destruct (is_dna_char c) eqn:E.
    + apply is_dna_char_base in E. contradiction.
    + apply andb_false_r.
Qed.

Lemma check_is_dna_accepts_witness :
  check_is_dna (lit "ACGT" ++ Out.newline :: []) = false.
Proof.
  apply (proj2 (proj2 (check_is_dna_accepts []))).
  cbn. intuition discriminate.
Defined.

End ScorerMore.

(** ** More on the scanner *)

Section ScannerMore.

Lemma flat_map_nil {A B} (f : A -> list B) xs :
  (forall x, In x xs -> f x = []) -> flat_map f xs = [].
Proof.
  induction xs as [|x xs IH]; intros H; [reflexivity|].
  cbn [flat_map]. rewrite H by now left. apply IH. intros y Hy. apply H. now right.
Qed.

Lemma flat_map_ext_in {A B} (f g : A -> list B) xs :
  (forall x, In x xs -> f x = g x) -> flat_map f xs = flat_map g xs.
Proof.
  induction xs as [|x xs IH]; intros H; [reflexivity|].
  cbn [flat_map]. rewrite H by now left. f_equal. apply IH.
  intros y Hy. apply H. now right.
Qed.

Lemma find_ext_in {A} (f g : A -> bool) xs :
  (forall x, In x xs -> f x = g x) -> find f xs = find g xs.
Proof.
  induction xs as [|x xs IH]; intros H; [reflexivity|].
  cbn [find]. rewrite H by now left. destruct (g x); [reflexivity|].
  apply IH. intros y Hy. apply H. now right.
Qed.

(** A recorded row, read on the closed form. *)
Lemma recorded_row input threshold c :
  In c (flat_map (candidate_at input threshold) (range 0 (len input - 5))) ->
  exists j,
    c = {| start := start c; span := slice input (start c) (j + 6);
           score := score35 input (start c) + score10 input j |}
    /\ 0 <= start c
    /\ passes input threshold (start c) j (score35 input (start c))
         (score10 input j).
Proof.
  intros Hc. apply in_recorded in Hc as (Hi & Hc).
  remember (start c) as i eqn:Ei.
  apply candidate_at_first in Hc as (j & E & P & _); [|lia].
  exists j. split; [exact E|]. split; [lia|exact P].
Qed.

(** X7: an input of fewer than 33 symbols has no candidate, and no -10
    offset is examined for it: the first offset, 21, is below [len - 11]
    from 33 symbols on only. *)
Theorem scan_below_33 input threshold :
  len input <= 32 ->
  find_possible_prokaryotic_sequences input threshold
  = Ok {| positions := []; sequences := []; scores := [] |}
  /\ examined_offsets input threshold = Ok [].
Proof.
  intros Hlen. rewrite find_refines, examined_refines.
  assert (forall i, In i (range 0 (len input - 5)) -> window input i = []) as Hw.
  { intros i Hi. apply in_range in Hi. unfold window. apply range_nil. lia. }
  rewrite !flat_map_nil; [split; reflexivity| |].
  - intros i Hi. unfold examined_at. rewrite (Hw i Hi).
    now destruct (4 <=? score35 input i).
  - intros i Hi. unfold candidate_at, first_hit. rewrite (Hw i Hi).
    now destruct (4 <=? score35 input i).
Qed.

Lemma scan_below_33_witness :
  len (lit "TTGACATGTAAAAAAAAAAAAAAATATAATAA") <= 32
  /\ find_possible_prokaryotic_sequences
       (lit "TTGACATGTAAAAAAAAAAAAAAATATAATAA") 0
     = Ok {| positions := []; sequences := []; scores := [] |}
  /\ examined_offsets (lit "TTGACATGTAAAAAAAAAAAAAAATATAATAA") 0 = Ok [].
Proof.
  assert (len (lit "TTGACATGTAAAAAAAAAAAAAAATATAATAA") <= 32) as Hlen
    by (vm_compute; discriminate).
  split; [assumption|].
  exact (scan_below_33 (lit "TTGACATGTAAAAAAAAAAAAAAATATAATAA") 0 Hlen).
Defined.

(** X8: every score the scan returns lies between 8 and 12, and is at least
    the threshold. *)
Theorem scores_between_8_and_12 input threshold :
  exists pp,
    find_possible_prokaryotic_sequences input threshold = Ok pp
    /\ (forall s, In s (scores pp) -> 8 <= s <= 12 /\ threshold <= s)
    /\ forall c, In c (candidates pp) -> 8 <= score c <= 12 /\ threshold <= score c.
Proof.
  eexists. split; [apply find_refines|].
  rewrite candidates_of_candidates. cbn [scores of_candidates].
  assert (forall c,
    In c (flat_map (candidate_at input threshold) (range 0 (len input - 5))) ->
    8 <= score c <= 12 /\ threshold <= score c) as H.
  { intros c Hc. apply recorded_row in Hc as (j & -> & _ & P). cbn [score start] in *.
    destruct P as (_ & H35 & _ & _ & H10 & Ht).
    match goal with |- context [score35 input ?i] =>
      pose proof (score35_bounds input i) end.
    pose proof (score10_bounds input j). lia. }
  split; [|exact H].
  intros s Hs. apply in_map_iff in Hs as (c & <- & Hc). now apply H.
Qed.

(** X9: with a threshold above 12 the scan returns nothing. *)
Theorem scan_above_12 input threshold :
  12 < threshold ->
  find_possible_prokaryotic_sequences input threshold
  = Ok {| positions := []; sequences := []; scores := [] |}.
Proof.
  intros Ht. rewrite find_refines.
  destruct (flat_map (candidate_at input threshold) (range 0 (len input - 5)))
    as [|c cs] eqn:E; [reflexivity|].
  assert (In c (flat_map (candidate_at input threshold) (range 0 (len input - 5))))
    as Hc by (rewrite E; now left).
  apply recorded_row in Hc as (j & _ & _ & P).
  destruct P as (_ & _ & _ & _ & _ & Hsum).
  pose proof (score35_bounds input (start c)). pose proof (score10_bounds input j). lia.
Qed.

Lemma scan_above_12_witness :
  12 < 13
  /\ find_possible_prokaryotic_sequences example_input 13
     = Ok {| positions := []; sequences := []; scores := [] |}.
Proof.
  assert (12 < 13) as Ht by reflexivity.
  split; [assumption|]. exact (scan_above_12 example_input 13 Ht).
Defined.

(** X10: a threshold of 8 or less, zero and negative ones included, filters
    nothing: the scan returns what it returns with threshold 8. *)
Theorem scan_up_to_8 input threshold :
  threshold <= 8 ->
  find_possible_prokaryotic_sequences input threshold
  = find_possible_prokaryotic_sequences input 8.
Proof.
  intros Ht. rewrite !find_refines. do 2 f_equal.
  apply flat_map_ext. intros i. unfold candidate_at.
  destruct (Z.leb_spec 4 (score35 input i)) as [H35|]; [|reflexivity].
  unfold first_hit.
  replace (find (qualifies input threshold i) (window input i))
    with (find (qualifies input 8 i) (window input i)); [reflexivity|].
  apply find_ext_in. intros j _. unfold qualifies.
  destruct (Z.leb_spec 4 (score10 input j)) as [H10|]; [|reflexivity].
  cbn [andb].
  destruct (Z.leb_spec 8 (score35 input i + score10 input j)),
           (Z.leb_spec threshold (score35 input i + score10 input j));
    try reflexivity; lia.
Qed.

Lemma scan_up_to_8_witness :
  -3 <= 8
  /\ find_possible_prokaryotic_sequences example_input (-3)
     = find_possible_prokaryotic_sequences example_input 8.
Proof.
  assert (-3 <= 8) as Ht by (vm_compute; discriminate).
  split; [assumption|]. exact (scan_up_to_8 example_input (-3) Ht).
Defined.

(** X11: a recorded span is the part of the input that begins at its start;
    it has between 27 and 36 symbols, so that 15 to 24 symbols lie between
    its two 6-symbol ends, and its start is at most [len - 33]. *)
Theorem span_in_input input threshold :
  exists pp,
    find_possible_prokaryotic_sequences input threshold = Ok pp
    /\ forall c, In c (candidates pp) ->
         span c = slice input (start c) (start c + len (span c))
         /\ 27 <= len (span c) <= 36
         /\ 15 <= len (span c) - 12 <= 24
         /\ 0 <= start c <= len input - 33.
Proof.
  eexists. split; [apply find_refines|].
  rewrite candidates_of_candidates.
  intros c Hc. apply recorded_row in Hc as (j & E & H0 & P).
  destruct P as (_ & _ & (Hw1 & Hw2 & Hw3) & _).
  assert (len (span c) = j + 6 - start c) as Hlen
    by (rewrite E at 1; cbn [span]; apply len_slice; lia).
  rewrite Hlen. split; [|lia].
  replace (start c + (j + 6 - start c)) with (j + 6) by lia.
  rewrite E at 1. reflexivity.
Qed.

End ScannerMore.

(** ** The scan under a change of case and under more input *)

Section ScanStability.

Lemma slice_upper s lo hi :
  check_is_dna s = true -> slice (upper s) lo hi = upper (slice s lo hi).
Proof.
  intros H.
  rewrite (upper_dna _ (check_is_dna_slice s lo hi H)), (upper_dna s H).
  unfold slice, len. now rewrite length_map, skipn_map, firstn_map.
Qed.

Lemma score35_upper input i :
  check_is_dna input = true -> score35 (upper input) i = score35 input i.
Proof. intros H. unfold score35. now rewrite slice_upper, upper_idem. Qed.

Lemma score10_upper input j :
  check_is_dna input = true -> score10 (upper input) j = score10 input j.
Proof. intros H. unfold score10. now rewrite slice_upper, upper_idem. Qed.

Lemma candidate_at_upper input threshold i :
  check_is_dna input = true ->
  candidate_at (upper input) threshold i
  = map upper_span (candidate_at input threshold i).
Proof.
  intros H. unfold candidate_at, first_hit, window.
  rewrite score35_upper, len_upper_dna by assumption.
  destruct (4 <=? score35 input i); [|reflexivity].
  replace (find (qualifies (upper input) threshold i)
             (range (i + 21) (Z.min (len input - 11) (i + 31))))
    with (find (qualifies input threshold i)
            (range (i + 21) (Z.min (len input - 11) (i + 31)))).
  - destruct (find _ _) as [j|]; [|reflexivity].
    cbn [map]. unfold upper_span. cbn [start span score].
    now rewrite slice_upper, score10_upper.
  - apply find_ext_in. intros j _. unfold qualifies.
    now rewrite score35_upper, score10_upper.
Qed.

Lemma flat_map_map {A B C} (f : A -> list B) (g : B -> C) xs :
  flat_map (fun x => map g (f x)) xs = map g (flat_map f xs).
Proof.
  induction xs as [|x xs IH]; [reflexivity|].
  cbn [flat_map]. now rewrite map_app, IH.
Qed.

(** X12: on an input that [check_is_dna] accepts, the scan is blind to the
    case: on the input in upper case it returns the same positions and
    scores, and the same sequences in upper case. *)
Theorem scan_case_blind input threshold :
  check_is_dna input = true ->
  find_possible_prokaryotic_sequences (upper input) threshold
  = fmap upper_sequences (find_possible_prokaryotic_sequences input threshold).
Proof.
  intros H. rewrite !find_refines, fmap_Ok, len_upper_dna by assumption. f_equal.
  rewrite (flat_map_ext _ _ (fun i => candidate_at_upper input threshold i H)),
    flat_map_map.
  unfold of_candidates, upper_sequences. cbn [positions sequences scores].
  now rewrite !map_map.
Qed.

Lemma scan_case_blind_witness :
  check_is_dna (lit "ttgacatgtaaaaaaaaaaaaaaatataataaaaaa") = true
  /\ find_possible_prokaryotic_sequences
       (upper (lit "ttgacatgtaaaaaaaaaaaaaaatataataaaaaa")) 8
     = Ok {| positions := [0];
             sequences := [lit "TTGACATGTAAAAAAAAAAAAAAATATAAT"];
             scores := [12] |}.
Proof.
  split; [reflexivity|].
  exact (scan_case_blind (lit "ttgacatgtaaaaaaaaaaaaaaatataataaaaaa") 8 eq_refl).
Defined.

Lemma slice_app_l {A} (s t : list A) lo hi :
  0 <= lo -> lo <= hi -> hi <= len s -> slice (s ++ t) lo hi = slice s lo hi.
Proof.
  intros H0 H1 H2. unfold slice, clamp. rewrite len_app.
  pose proof (len_nonneg t) as Ht.
  destruct (lo <? 0) eqn:E1; [lia|]. destruct (hi <? 0) eqn:E2; [lia|].
  rewrite !Z.min_l by lia.
  rewrite skipn_app, firstn_app, length_skipn.
  unfold len in *.
  replace (Z.to_nat (hi - lo) - (length s - Z.to_nat lo))%nat with 0%nat by lia.
  cbn [firstn]. now rewrite app_nil_r.
Qed.

Lemma find_range_intro (f : Z -> bool) j : forall lo hi,
  lo <= j < hi -> f j = true -> (forall j', lo <= j' < j -> f j' = false) ->
  find f (range lo hi) = Some j.
Proof.
  apply (range_ind (fun lo hi => lo <= j < hi -> f j = true ->
    (forall j', lo <= j' < j -> f j' = false) -> find f (range lo hi) = Some j)).
  - intros lo hi H Hj. lia.
  - intros lo hi H IH Hj Fj Hfirst. rewrite range_cons by assumption. cbn [find].
    destruct (Z.eq_dec lo j) as [->|Hne]; [now rewrite Fj|].
    rewrite Hfirst by lia. apply IH; [lia|assumption|].
    intros j' Hj'. apply Hfirst. lia.
Qed.

Lemma score35_app input tail i :
  0 <= i -> i + 6 <= len input -> score35 (input ++ tail) i = score35 input i.
Proof. intros H0 H1. unfold score35. now rewrite slice_app_l by lia. Qed.

Lemma score10_app input tail j :
  0 <= j -> j + 6 <= len input -> score10 (input ++ tail) j = score10 input j.
Proof. intros H0 H1. unfold score10. now rewrite slice_app_l by lia. Qed.

Lemma candidate_at_app input tail threshold i c :
  0 <= i ->
  In c (candidate_at input threshold i) ->
  In c (candidate_at (input ++ tail) threshold i).
Proof.
  intros H0. unfold candidate_at, first_hit.
  destruct (Z.leb_spec 4 (score35 input i)) as [H35|]; [|intros []].
  destruct (find _ (window input i)) as [j|] eqn:F; [|intros []].
  intros [<-|[]]. unfold window in F.
  apply find_range_first in F as (Hj & Q & Hfirst).
  pose proof (len_nonneg tail) as Ht.
  assert (forall j', i + 21 <= j' <= j ->
            qualifies (input ++ tail) threshold i j' = qualifies input threshold i j')
    as Hq.
  { intros j' Hj'. unfold qualifies.
    now rewrite score35_app, score10_app by lia. }
  rewrite score35_app by lia.
  destruct (Z.leb_spec 4 (score35 input i)); [|lia].
  unfold window.
  rewrite (find_range_intro (qualifies (input ++ tail) threshold i) j).
  - left. now rewrite slice_app_l, score10_app by lia.
  - rewrite len_app. lia.
  - rewrite Hq by lia. exact Q.
  - intros j' Hj'. rewrite Hq by lia. apply Hfirst. lia.
Qed.

(** X13: more input keeps what was found: every candidate of an input, with
    its start, span and score, is a candidate of the input followed by any
    further symbols. *)
Theorem scan_keeps_candidates input tail threshold :
  exists pp pp',
    find_possible_prokaryotic_sequences input threshold = Ok pp
    /\ find_possible_prokaryotic_sequences (input ++ tail) threshold = Ok pp'
    /\ incl (candidates pp) (candidates pp').
Proof.
  do 2 eexists. split; [apply find_refines|]. split; [apply find_refines|].
  rewrite !candidates_of_candidates.
  intros c Hc. apply in_recorded in Hc as (Hi & Hc). apply in_recorded.
  pose proof (len_nonneg tail) as Ht.
  split; [rewrite len_app; lia|]. apply candidate_at_app; [lia|assumption].
Qed.

End ScanStability.

(** ** The presentation of a scan *)

Section Presentation.

Lemma item_map_middle {A B} (f : A -> B) pre c post out :
  Out.item (map f (pre ++ c :: post)) (len pre) out = (Out.Returns (f c), out).
Proof.
  rewrite map_app. cbn [map].
  replace (len pre) with (len (map f pre)) by (unfold len; now rewrite length_map).
  unfold Out.item. now rewrite getitem_middle.
Qed.

(** The rows of the table, from row [len pre] on. *)
Lemma print_rows cs : forall pre out,
  Out.for_each (range (len pre) (len pre + len cs))
    (fun index =>
       position <~ Out.item (map start (pre ++ cs)) index ;;
       sequence <~ Out.item (map span (pre ++ cs)) index ;;
       score <~ Out.item (map score (pre ++ cs)) index ;;
       Out.print (format_row position sequence score)) out
  = (Out.Returns tt, out ++ flat_map row_line cs).
Proof.
  induction cs as [|c cs IH]; intros pre out.
  - rewrite range_nil by (unfold len; cbn; lia). cbn. now rewrite app_nil_r.
  - pose proof (len_nonneg cs) as Hcs.
    rewrite range_cons by (unfold len in *; cbn [length]; lia).
    cbn [Out.for_each flat_map]. unfold Out.bind at 1 2 3 4.
    rewrite !item_map_middle. unfold Out.print at 1, Out.write.
    replace (pre ++ c :: cs) with ((pre ++ [c]) ++ cs) by (now rewrite <- app_assoc).
    replace (len pre + 1) with (len (pre ++ [c]))
      by (rewrite len_app; reflexivity).
    replace (len pre + len (c :: cs)) with (len (pre ++ [c]) + len cs)
      by (rewrite len_app; unfold len; cbn [length]; lia).
    rewrite IH. unfold row_line at 2. now rewrite <- !app_assoc.
Qed.

Lemma print_promoter_sequences_rows cs out :
  print_promoter_sequences (of_candidates cs) out
  = (Out.Returns tt,
     out ++ table_title ++ (format_header ++ [Out.newline]) ++ flat_map row_line cs).
Proof.
  unfold print_promoter_sequences. cbn [positions sequences scores of_candidates].
  unfold Out.bind at 1 2. unfold Out.print at 1 2, Out.write.
  replace (len (map start cs)) with (len cs) by (unfold len; now rewrite length_map).
  pose proof (print_rows cs []) as H. cbn [app] in H.
  change (len (@nil candidate)) with 0 in H. rewrite Z.add_0_l in H.
  rewrite H. unfold table_title. now rewrite <- !app_assoc.
Qed.

Lemma length_ljust w s : length (Out.ljust w s) = Nat.max w (length s).
Proof. unfold Out.ljust. rewrite length_app, repeat_length. lia. Qed.

Lemma len_format_row position sequence score :
  len sequence <= 50 -> len (Out.str_of_int score) <= 3 ->
  len (format_row position sequence score)
  = 62 + Z.max 10 (len (Out.str_of_int position)).
Proof.
  unfold len, format_row. intros Hs Hc.
  rewrite !length_app, !length_ljust. cbn [length lit list_ascii_of_string]. lia.
Qed.

(** X14: for what a scan returns, [print_promoter_sequences] raises nothing
    and writes the title, the header and one row per candidate, in the order
    of the positions; in a row the sequence and the score never overflow
    their columns of 50 and 3, so a row is 72 characters wide as long as the
    position has at most 10 digits. *)
Theorem print_promoter_sequences_table input threshold out :
  exists pp,
    find_possible_prokaryotic_sequences input threshold = Ok pp
    /\ print_promoter_sequences pp out
       = (Out.Returns tt,
          out ++ table_title ++ (format_header ++ [Out.newline])
          ++ flat_map row_line (candidates pp))
    /\ forall c, In c (candidates pp) ->
         len (format_row (start c) (span c) (score c))
         = 62 + Z.max 10 (len (Out.str_of_int (start c))).
Proof.
  eexists. split; [apply find_refines|].
  rewrite candidates_of_candidates. split; [apply print_promoter_sequences_rows|].
  intros c Hc. apply recorded_row in Hc as (j & E & H0 & P).
  destruct P as (_ & H35 & (Hw1 & Hw2 & Hw3) & _ & H10 & _).
  pose proof (score35_bounds input (start c)) as B35.
  pose proof (score10_bounds input j) as B10.
  apply len_format_row.
  - rewrite E. cbn [span]. rewrite len_slice by lia. lia.
  - rewrite E. cbn [score].
    assert (score35 input (start c) + score10 input j = 8
            \/ score35 input (start c) + score10 input j = 9
            \/ score35 input (start c) + score10 input j = 10
            \/ score35 input (start c) + score10 input j = 11
            \/ score35 input (start c) + score10 input j = 12)
      as [->|[->|[->|[->| ->]]]] by lia; vm_compute; discriminate.
Qed.

Lemma slice_three {A} (s : list A) a b :
  0 <= a -> a <= b -> b <= len s ->
  slice s 0 a ++ slice s a b ++ slice s b (len s) = s.
Proof.
  intros H0 H1 H2. unfold slice, clamp.
  destruct (0 <? 0) eqn:E0; [lia|]. destruct (a <? 0) eqn:E1; [lia|].
  destruct (b <? 0) eqn:E2; [lia|]. destruct (len s <? 0) eqn:E3; [lia|].
  rewrite !Z.min_l by lia. rewrite Z.sub_0_r. cbn [Z.to_nat skipn].
  rewrite (firstn_all2 (skipn (Z.to_nat b) s))
    by (rewrite length_skipn; unfold len; lia).
  replace (skipn (Z.to_nat b) s)
    with (skipn (Z.to_nat (b - a)) (skipn (Z.to_nat a) s))
    by (rewrite skipn_skipn; f_equal; lia).
  now rewrite !firstn_skipn.
Qed.

(** Where [index] finds the start of a row, when no two rows share one. *)
Lemma index_from_row cs : forall c k,
  NoDup (map start cs) -> In c cs ->
  exists pre post,
    cs = pre ++ c :: post
    /\ Out.index_from (start c) (map start cs) k = Some (k + len pre).
Proof.
  induction cs as [|d cs IH]; intros c k Hnd Hin; [destruct Hin|].
  cbn [map] in Hnd. apply NoDup_cons_iff in Hnd as [Hd Hnd].
  cbn [map Out.index_from].
  destruct (Z.eqb_spec (start d) (start c)) as [E|E].
  - destruct Hin as [->|Hin].
    + exists [], cs. split; [reflexivity|]. f_equal. unfold len. cbn. lia.
    + exfalso. apply Hd. rewrite E. now apply in_map.
  - destruct Hin as [->|Hin]; [contradiction|].
    destruct (IH c (k + 1) Hnd Hin) as (pre & post & -> & Hi).
    exists (d :: pre), post. split; [reflexivity|]. rewrite Hi. f_equal.
    unfold len. cbn [length]. lia.
Qed.

(** [print_each_sequence] at the start of a row whose span lies in the input
    at that start. *)
Lemma print_row_highlighted input cs c out :
  NoDup (map start cs) -> In c cs ->
  print_each_sequence input (of_candidates cs) (start c) out
  = (Out.Returns tt,
     out ++ banner ++ slice input 0 (start c)
     ++ pink ++ slice input (start c) (start c + len (span c)) ++ plain
     ++ slice input (start c + len (span c)) (len input) ++ [Out.newline]).
Proof.
  intros Hnd Hin. unfold print_each_sequence.
  cbn [positions sequences of_candidates].
  assert (contains (start c) (map start cs) = true) as ->
    by (apply contains_true; now apply in_map).
  destruct (index_from_row cs c 0 Hnd Hin) as (pre & post & -> & Hi).
  rewrite Z.add_0_l in Hi.
  unfold Out.bind, Out.index. rewrite Hi.
  unfold Out.print, Out.write, Out.ret. rewrite !item_map_middle.
  unfold banner. now rewrite <- !app_assoc.
Qed.

Lemma recorded_NoDup input threshold :
  NoDup (map start
           (flat_map (candidate_at input threshold) (range 0 (len input - 5)))).
Proof. apply sorted_NoDup, recorded_sorted, range_sorted. Qed.

(** X15: asked for the start of a candidate of the scan,
    [print_each_sequence] writes the input in three parts, the middle one,
    between the two escape sequences, being the span of that candidate:
    without the escape sequences the text written after the banner is the
    input and a line end. *)
Theorem print_each_sequence_highlights input threshold out :
  exists pp,
    find_possible_prokaryotic_sequences input threshold = Ok pp
    /\ forall c, In c (candidates pp) ->
         exists before after,
           input = before ++ span c ++ after
           /\ len before = start c
           /\ print_each_sequence input pp (start c) out
              = (Out.Returns tt,
                 out ++ banner ++ before ++ pink ++ span c ++ plain
                 ++ after ++ [Out.newline]).
Proof.
  eexists. split; [apply find_refines|].
  rewrite candidates_of_candidates. intros c Hc.
  pose proof Hc as Hrow. apply recorded_row in Hrow as (j & E & H0 & P).
  destruct P as (_ & _ & (Hw1 & Hw2 & Hw3) & _).
  assert (len (span c) = j + 6 - start c) as Hlen
    by (rewrite E at 1; cbn [span]; apply len_slice; lia).
  assert (span c = slice input (start c) (start c + len (span c))) as Hspan.
  { rewrite Hlen. replace (start c + (j + 6 - start c)) with (j + 6) by lia.
    rewrite E at 1. reflexivity. }
  exists (slice input 0 (start c)),
         (slice input (start c + len (span c)) (len input)).
  split; [|split].
  - rewrite Hspan at 1. symmetry. apply slice_three; lia.
  - rewrite len_slice; lia.
  - rewrite print_row_highlighted by (try apply recorded_NoDup; assumption).
    now rewrite <- Hspan.
Qed.

(** X16: on what a scan returns, [print_each_sequence] raises nothing for
    any integer asked for, a negative one included, and writes nothing when
    the integer is not the start of a candidate. *)
Theorem print_each_sequence_quiet input threshold position out :
  exists pp text,
    find_possible_prokaryotic_sequences input threshold = Ok pp
    /\ print_each_sequence input pp position out = (Out.Returns tt, out ++ text)
    /\ (~ In position (positions pp) -> text = []).
Proof.
  eexists.
  destruct (contains position
    (map start (flat_map (candidate_at input threshold)
                  (range 0 (len input - 5))))) eqn:C.
  - apply contains_true in C. pose proof C as Hin.
    apply in_map_iff in Hin as (c & <- & Hc).
    eexists. split; [apply find_refines|]. split.
    + apply print_row_highlighted; [apply recorded_NoDup|assumption].
    + intros Hn. contradiction.
  - exists []. split; [apply find_refines|]. split; [|reflexivity].
    unfold print_each_sequence. cbn [positions of_candidates]. rewrite C.
    unfold Out.ret. now rewrite app_nil_r.
Qed.

End Presentation.

(** ** How much the scan examines *)

Section ScanWork.

Lemma offsets_of_absent input i xs :
  ~ In i xs -> offsets_of i (flat_map (examined_at input) xs) = [].
Proof.
  induction xs as [|x xs IH]; intros Hi; [reflexivity|].
  cbn [flat_map]. rewrite offsets_of_app, offsets_of_other, IH.
  - reflexivity.
  - intros H. apply Hi. now right.
  - intros ->. apply Hi. now left.
Qed.

Lemma length_range lo hi : length (range lo hi) = Z.to_nat (hi - lo).
Proof. unfold range. now rewrite length_map, length_seq. Qed.

(** X17: for each start the scan scores at most 10 windows against
    [SEQUENCE_10], and none for a start whose own window scores below 4
    against [SEQUENCE_35]. *)
Theorem examined_at_most_10 input threshold i :
  exists log,
    examined_offsets input threshold = Ok log
    /\ (length (offsets_of i log) <= 10)%nat
    /\ (forall n35,
          fuzzy_match SEQUENCE_35 (slice input i (i + 6)) = Ok n35 ->
          n35 < 4 -> offsets_of i log = []).
Proof.
  eexists. split; [apply examined_refines|].
  destruct (in_dec Z.eq_dec i (range 0 (len input - 5))) as [Hin|Hout].
  - rewrite offsets_of_log by (try assumption; apply sorted_NoDup, range_sorted).
    apply in_range in Hin. split.
    + destruct (4 <=? score35 input i); [|cbn; lia].
      unfold window. rewrite length_range. lia.
    + intros n35 E Hlt. rewrite fuzzy_match_35 in E by lia. injection E as <-.
      destruct (Z.leb_spec 4 (score35 input i)); [lia|reflexivity].
  - rewrite offsets_of_absent by assumption. split; [cbn; lia|reflexivity].
Qed.

End ScanWork.
